(** * Coinbase SDK (Node.js): Transfer, StakingBalance and BalanceMap

  A shallow embedding of [src/coinbase/transfer.ts],
  [src/coinbase/staking_balance.ts] and [src/coinbase/balance_map.ts],
  followed by the properties of the transfer status mapping, of the
  broadcast / reload / wait protocol, of the cursor walk of
  [StakingBalance.list] and of [BalanceMap].

  JavaScript values are modelled as follows: [undefined] is [None], a
  thrown exception is [Throw e], objects that are mutated in place
  ([Transfer] instances) live in a heap and are handled through
  references, and every call of a remote endpoint is recorded in a
  trace. *)

From Stdlib Require Import ZArith Lia.
From stdpp Require Import base strings list sets.

Open Scope string_scope.
Open Scope list_scope.
Open Scope nat_scope.

(** ** JavaScript exceptions *)

Module Js.

(** The error classes the three files throw or let through. [Error] is
  the built-in class, [TypeError] is what dereferencing [undefined]
  raises, [InternalError] and [TimeoutError] come from [./errors],
  [APIError] stands for whatever a remote call rejects with. *)
Inductive JsError : Type :=
  | Error (message : string)
  | TypeError (message : string)
  | InternalError (message : string)
  | TimeoutError (message : string)
  | APIError (message : string).

Inductive result (A : Type) : Type :=
  | Ok (a : A)
  | Throw (e : JsError).

Arguments Ok {A} a.
Arguments Throw {A} e.

Definition bind {A B : Type} (r : result A) (k : A → result B) : result B :=
  match r with
  | Ok a => k a
  | Throw e => Throw e
  end.

(** A string is truthy when it is not empty; [undefined] is falsy. *)
Definition truthy (s : option string) : bool :=
  match s with
  | Some s => negb (String.eqb s "")
  | None => false
  end.

(** [a === b] where [a] may be [undefined] and [b] is a string. *)
Definition strict_eq (a : option string) (b : string) : bool :=
  match a with
  | Some a => String.eqb a b
  | None => false
  end.

End Js.

Import Js.

(** ** Status enumerations ([./types])

  [TransactionStatus] and [SponsoredSendStatus] are TypeScript
  enumerations; [Transfer.getStatus] uses their members as the labels of
  one [switch], so what matters is the value of each member. The values
  are parameters of the development. *)

Class StatusValues : Type := {
  TransactionStatus_PENDING : string;
  TransactionStatus_BROADCAST : string;
  TransactionStatus_COMPLETE : string;
  TransactionStatus_FAILED : string;
  SponsoredSendStatus_PENDING : string;
  SponsoredSendStatus_SIGNED : string;
  SponsoredSendStatus_SUBMITTED : string;
  SponsoredSendStatus_COMPLETE : string;
  SponsoredSendStatus_FAILED : string
}.

(** [TransferStatus]: only its members are produced and compared. *)
Inductive TransferStatus : Type :=
| PENDING
| BROADCAST
| COMPLETE
| FAILED.

#[global] Instance TransferStatus_eq_dec : EqDecision TransferStatus.
Proof. solve_decision. Defined.

(** ** The send delegates ([./transaction], [./sponsored_send])

  The classes [Transaction] and [SponsoredSend] wrap the sub-record of
  the same name of a transfer model. Only the methods [Transfer] calls
  are needed; they are parameters, one instance per class. *)

Module Delegate.

Class SendDelegate (D : Type) : Type := {
  isSigned : D → bool;
  getSignature : D → option string;
  getStatus : D → option string;
  getTransactionHash : D → option string;
  getTransactionLink : D → option string
}.

End Delegate.

(** ** [Transfer] *)

Module Transfer.

(** The API model of a transfer ([../client/api]): the fields the class
  reads. [transaction] and [sponsored_send] are optional. *)
Record TransferModel (TransactionModel SponsoredSendModel : Type) : Type := {
  transfer_id : string;
  network_id : string;
  wallet_id : string;
  address_id : string;
  destination : string;
  asset_id : string;
  amount : string;
  transaction : option TransactionModel;
  sponsored_send : option SponsoredSendModel
}.

Arguments transfer_id {_ _} _.
Arguments network_id {_ _} _.
Arguments wallet_id {_ _} _.
Arguments address_id {_ _} _.
Arguments destination {_ _} _.
Arguments asset_id {_ _} _.
Arguments amount {_ _} _.
Arguments transaction {_ _} _.
Arguments sponsored_send {_ _} _.

(** What [getSendTransactionDelegate] returns when it is not
  [undefined]: a [Transaction] or a [SponsoredSend]. *)
Inductive SendTransactionDelegate (TransactionModel SponsoredSendModel : Type) : Type :=
  | IsTransaction (tx : TransactionModel)
  | IsSponsoredSend (ss : SponsoredSendModel).

Arguments IsTransaction {_ _} tx.
Arguments IsSponsoredSend {_ _} ss.

Section Getters.

Context {SV : StatusValues}.
Context {TransactionModel SponsoredSendModel : Type}.
Context {TxD : Delegate.SendDelegate TransactionModel}.
Context {SsD : Delegate.SendDelegate SponsoredSendModel}.

Local Abbreviation Model := (TransferModel TransactionModel SponsoredSendModel).
Local Abbreviation DelegateOf := (SendTransactionDelegate TransactionModel SponsoredSendModel).

(** The constructor, through [fromModel]: it refuses an absent model. *)
Definition fromModel (transferModel : option Model) : result Model :=
  match transferModel with
  | None => Throw (InternalError "Transfer model cannot be empty")
  | Some m => Ok m
  end.

Definition getId (model : Model) : string := transfer_id model.
Definition getNetworkId (model : Model) : string := network_id model.
Definition getWalletId (model : Model) : string := wallet_id model.
Definition getFromAddressId (model : Model) : string := address_id model.
Definition getDestinationAddressId (model : Model) : string := destination model.
Definition getAssetId (model : Model) : string := asset_id model.

Definition getTransaction (model : Model) : option TransactionModel :=
  match transaction model with
  | None => None
  | Some tx => Some tx
  end.

Definition getSponsoredSend (model : Model) : option SponsoredSendModel :=
  match sponsored_send model with
  | None => None
  | Some ss => Some ss
  end.

(** [!this.getTransaction() ? this.getSponsoredSend() : this.getTransaction()] *)
Definition getSendTransactionDelegate (model : Model) : option DelegateOf :=
  match getTransaction model with
  | None => IsSponsoredSend <$> getSponsoredSend model
  | Some tx => Some (IsTransaction tx)
  end.

Definition delegate_isSigned (d : DelegateOf) : bool :=
  match d with
  | IsTransaction tx => Delegate.isSigned tx
  | IsSponsoredSend ss => Delegate.isSigned ss
  end.

Definition delegate_getSignature (d : DelegateOf) : option string :=
  match d with
  | IsTransaction tx => Delegate.getSignature tx
  | IsSponsoredSend ss => Delegate.getSignature ss
  end.

Definition delegate_getStatus (d : DelegateOf) : option string :=
  match d with
  | IsTransaction tx => Delegate.getStatus tx
  | IsSponsoredSend ss => Delegate.getStatus ss
  end.

Definition delegate_getTransactionHash (d : DelegateOf) : option string :=
  match d with
  | IsTransaction tx => Delegate.getTransactionHash tx
  | IsSponsoredSend ss => Delegate.getTransactionHash ss
  end.

Definition delegate_getTransactionLink (d : DelegateOf) : option string :=
  match d with
  | IsTransaction tx => Delegate.getTransactionLink tx
  | IsSponsoredSend ss => Delegate.getTransactionLink ss
  end.

(** [this.getSendTransactionDelegate()?.getTransactionHash()] *)
Definition getTransactionHash (model : Model) : result (option string) :=
  match getSendTransactionDelegate model with
  | None => Ok None
  | Some d => Ok (delegate_getTransactionHash d)
  end.

(** [this.getSendTransactionDelegate()?.getTransactionLink()] *)
Definition getTransactionLink (model : Model) : result (option string) :=
  match getSendTransactionDelegate model with
  | None => Ok None
  | Some d => Ok (delegate_getTransactionLink d)
  end.

(** The [switch] of [getStatus]: the labels are tried in the order of
    the source with [===], the first equal one decides. *)
Definition status_switch (status : option string) : option TransferStatus :=
  if strict_eq status TransactionStatus_PENDING then Some PENDING
  else if strict_eq status SponsoredSendStatus_PENDING then Some PENDING
  else if strict_eq status SponsoredSendStatus_SIGNED then Some PENDING
  else if strict_eq status TransactionStatus_BROADCAST then Some BROADCAST
  else if strict_eq status SponsoredSendStatus_SUBMITTED then Some BROADCAST
  else if strict_eq status TransactionStatus_COMPLETE then Some COMPLETE
  else if strict_eq status SponsoredSendStatus_COMPLETE then Some COMPLETE
  else if strict_eq status TransactionStatus_FAILED then Some FAILED
  else if strict_eq status SponsoredSendStatus_FAILED then Some FAILED
  else None.

(** [switch (this.getSendTransactionDelegate()!.getStatus()!)]: the
    two [!] are erased by the compiler, so the method call on an
    absent delegate is a call on [undefined]. *)
Definition getStatus (model : Model) : result (option TransferStatus) :=
  match getSendTransactionDelegate model with
  | None =>
      Throw (TypeError "Cannot read properties of undefined (reading 'getStatus')")
  | Some d => Ok (status_switch (delegate_getStatus d))
  end.

End Getters.

(** *** The remote service, the clock and the heap

    [Coinbase.apiClients.transfer] is an external collaborator. A run of
    the program sees a sequence of responses: the response to the call
    that comes after [n] earlier calls is [getTransfer api n] (or
    [broadcastTransfer api n]), together with the time the call takes.
    Times are in milliseconds, as [Date.now()] counts them. *)

Definition ref : Type := nat.

Inductive Event : Type :=
| GetTransfer (walletId addressId transferId : string)
| BroadcastTransfer (walletId addressId transferId : string) (signed_payload : option string)
| Sleep (ms : Z).

Definition is_call (e : Event) : bool :=
  match e with
  | Sleep _ => false
  | _ => true
  end.

Definition is_sleep (e : Event) : bool := negb (is_call e).

Definition calls (tr : list Event) : nat := length (List.filter is_call tr).
Definition sleeps (tr : list Event) : nat := length (List.filter is_sleep tr).

Section Protocol.

Context {SV : StatusValues}.
Context {TransactionModel SponsoredSendModel : Type}.
Context {TxD : Delegate.SendDelegate TransactionModel}.
Context {SsD : Delegate.SendDelegate SponsoredSendModel}.

Local Abbreviation Model := (TransferModel TransactionModel SponsoredSendModel).

Record Api : Type := {
  getTransfer : nat → Z * result Model;
  broadcastTransfer : nat → Z * result Model
}.

(** [heap] holds the [model] field of every [Transfer] instance. *)
Record World : Type := {
  heap : list Model;
  now : Z;
  trace : list Event
}.

(** Computations: they may throw, they change the world, and [None] is
    the absence of a result (a reference outside the heap, or a loop out
    of fuel). *)
Definition M (A : Type) : Type := World → option (result A * World).

Definition ret {A : Type} (a : A) : M A := λ w, Some (Ok a, w).

Definition throw {A : Type} (e : JsError) : M A := λ w, Some (Throw e, w).

Definition lift {A : Type} (r : result A) : M A := λ w, Some (r, w).

Definition and_then {A B : Type} (m : M A) (k : A → M B) : M B :=
  λ w, match m w with
       | None => None
       | Some (Ok a, w') => k a w'
       | Some (Throw e, w') => Some (Throw e, w')
       end.

Local Notation "'do' x <- m ; k" := (and_then m (λ x, k))
  (at level 10, x name, m at level 100, k at level 200).

(** [this.model] *)
Definition read_model (this : ref) : M Model :=
  λ w, match heap w !! this with
       | Some model => Some (Ok model, w)
       | None => None
       end.

(** [this.model = data] *)
Definition write_model (this : ref) (data : Model) : M unit :=
  λ w, Some (Ok tt, {| heap := <[this := data]> (heap w); now := now w; trace := trace w |}).

(** [new Transfer(model)]: a fresh instance. *)
Definition alloc (model : Model) : M ref :=
  λ w, Some (Ok (length (heap w)),
             {| heap := heap w ++ [model]; now := now w; trace := trace w |}).

(** [Date.now()] *)
Definition date_now : M Z := λ w, Some (Ok (now w), w).

(** Modelled from the spec: [delay] of [./utils] is the suspend-for-duration
    primitive of the clock collaborator; it lets [ms] milliseconds pass
    ([ms] is the argument of [delay], which is in seconds, times 1000). *)
Definition delay (ms : Z) : M unit :=
  λ w, Some (Ok tt, {| heap := heap w; now := now w + ms; trace := trace w ++ [Sleep ms] |}).

Variable api : Api.

Definition call_getTransfer (walletId addressId transferId : string) : M Model :=
  λ w, let '(latency, response) := getTransfer api (calls (trace w)) in
       Some (response,
             {| heap := heap w;
                now := now w + latency;
                trace := trace w ++ [GetTransfer walletId addressId transferId] |}).

Definition call_broadcastTransfer (walletId addressId transferId : string)
    (signed_payload : option string) : M Model :=
  λ w, let '(latency, response) := broadcastTransfer api (calls (trace w)) in
       Some (response,
             {| heap := heap w;
                now := now w + latency;
                trace := trace w ++ [BroadcastTransfer walletId addressId transferId signed_payload] |}).

(** [!this.getSendTransactionDelegate()?.isSigned()] *)
Definition not_signed (model : Model) : bool :=
  match getSendTransactionDelegate model with
  | None => true
  | Some d => negb (delegate_isSigned d)
  end.

(** [this.getSendTransactionDelegate()!.getSignature()!] *)
Definition signed_payload_of (model : Model) : result (option string) :=
  match getSendTransactionDelegate model with
  | None => Throw (TypeError "Cannot read properties of undefined (reading 'getSignature')")
  | Some d => Ok (delegate_getSignature d)
  end.

Definition broadcast (this : ref) : M ref :=
  do model <- read_model this;
  if not_signed model then throw (Error "Cannot broadcast unsigned Transfer")
  else
    do signed_payload <- lift (signed_payload_of model);
    do data <- call_broadcastTransfer (getWalletId model) (getFromAddressId model)
                 (getId model) signed_payload;
    do fresh <- lift (fromModel (Some data));
    alloc fresh.

Definition reload (this : ref) : M unit :=
  do model <- read_model this;
  do data <- call_getTransfer (getWalletId model) (getFromAddressId model) (getId model);
  write_model this data.

(** [status === TransferStatus.COMPLETE || status === TransferStatus.FAILED] *)
Definition is_terminal (status : option TransferStatus) : bool :=
  bool_decide (status = Some COMPLETE) || bool_decide (status = Some FAILED).

(** The [while] loop of [wait]; [timeoutMs] is [timeoutSeconds * 1000] and
    [intervalMs] the duration of [delay(intervalSeconds)]. *)
Fixpoint wait_loop (fuel : nat) (this : ref) (startTime intervalMs timeoutMs : Z) : M ref :=
  match fuel with
  | O => λ _, None
  | S fuel =>
      do t <- date_now;
      if t - startTime <? timeoutMs then
        do _ <- reload this;
        do model <- read_model this;
        do status <- lift (getStatus model);
        if is_terminal status then ret this
        else
          do _ <- delay intervalMs;
          wait_loop fuel this startTime intervalMs timeoutMs
      else throw (TimeoutError "Transfer timed out")
  end%Z.

Definition wait (fuel : nat) (this : ref) (intervalMs timeoutMs : Z) : M ref :=
  do startTime <- date_now;
  wait_loop fuel this startTime intervalMs timeoutMs.

(** *** Worlds and runs used to state the properties

    The world after a successful [reload], and after [delay]. *)
Definition reloaded (this : ref) (model data : Model) (latency : Z) (w : World) : World :=
  {| heap := <[this := data]> (heap w);
     now := now w + latency;
     trace := trace w ++ [GetTransfer (getWalletId model) (getFromAddressId model) (getId model)] |}.

Definition slept (ms : Z) (w : World) : World :=
  {| heap := heap w; now := now w + ms; trace := trace w ++ [Sleep ms] |}.

(** The reloads that come before the terminal one: how long each takes
    and the record it yields. *)
Definition total_latency (rs : list (Z * Model)) : Z :=
  foldr (λ r acc, fst r + acc)%Z 0%Z rs.

Definition non_terminal (r : Z * Model) : Prop :=
  (0 ≤ fst r)%Z ∧ ∃ status, getStatus (snd r) = Ok status ∧ is_terminal status = false.

(** The world after a call of [getTransfer] that was rejected. *)
Definition rejected (model : Model) (latency : Z) (w : World) : World :=
  {| heap := heap w;
     now := now w + latency;
     trace := trace w ++ [GetTransfer (getWalletId model) (getFromAddressId model) (getId model)] |}.

(** The events [wait] may add to the trace. *)
Definition poll_event (intervalMs : Z) (e : Event) : Prop :=
  e = Sleep intervalMs ∨ ∃ walletId addressId transferId, e = GetTransfer walletId addressId transferId.

(** The order of those events: a call, then a sleep for the interval,
    and so on; the run of events ends with a sleep or with a call. *)
Inductive polling (intervalMs : Z) : list Event → Prop :=
| polling_done : polling intervalMs []
| polling_last (walletId addressId transferId : string) :
    polling intervalMs [GetTransfer walletId addressId transferId]
| polling_turn (walletId addressId transferId : string) (evs : list Event) :
    polling intervalMs evs →
    polling intervalMs (GetTransfer walletId addressId transferId :: Sleep intervalMs :: evs).

End Protocol.

End Transfer.

(** ** [StakingBalance] *)

Module StakingBalance.

(** The page type of the generated client ([../client]). *)
Record FetchStakingBalances200Response (StakingBalanceModel : Type) : Type := {
  data : list StakingBalanceModel;
  has_more : bool;
  next_page : option string
}.

Arguments data {_} _.
Arguments has_more {_} _.
Arguments next_page {_} _.

Record Request : Type := {
  network_id : string;
  asset_id : string;
  address_id : string;
  start_time : string;
  end_time : string
}.

Inductive Event : Type :=
| FetchStakingBalances (request : Request) (limit : nat) (page : option string)
| AssetFetch (networkId assetId : string).

Definition is_page_request (e : Event) : bool :=
  match e with
  | FetchStakingBalances _ _ _ => true
  | AssetFetch _ _ => false
  end.

Definition page_requests (tr : list Event) : nat := length (List.filter is_page_request tr).
Definition asset_requests (tr : list Event) : nat :=
  length (List.filter (λ e, negb (is_page_request e)) tr).

Section Listing.

Context {StakingBalanceModel Asset : Type}.

Local Abbreviation Response := (FetchStakingBalances200Response StakingBalanceModel).

(** [new StakingBalance(model, asset)] *)
Record StakingBalance : Type := {
  model : StakingBalanceModel;
  asset : Asset
}.

(** The collaborators: [Coinbase.apiClients.stake.fetchStakingBalances]
    and [Asset.fetch] answer the call that comes after [n] earlier calls
    of the same kind; [Coinbase.normalizeNetwork] is a function on
    strings. *)
Record Service : Type := {
  fetchStakingBalances : nat → result Response;
  Asset_fetch : nat → result Asset;
  normalizeNetwork : string → string
}.

Variable service : Service.
Variables networkId assetId addressId startTime endTime : string.

(** The variables of the loop, and the calls made so far. *)
Record LoopState : Type := {
  stakingBalances : list StakingBalance;
  queue : list string;
  trace : list Event
}.

Definition initial : LoopState :=
  {| stakingBalances := []; queue := [""]; trace := [] |}.

(** [page?.length ? page : undefined] *)
Definition cursor_of (page : string) : option string :=
  if Nat.eqb (String.length page) 0 then None else Some page.

(** [if (has_more) { if (next_page) { queue.push(next_page) } }] *)
Definition enqueue (response : Response) (queue : list string) : list string :=
  if has_more response then
    match next_page response with
    | Some cursor => if truthy (Some cursor) then queue ++ [cursor] else queue
    | None => queue
    end
  else queue.

(** One turn of the [while] loop, after [queue.shift()] gave [page] and
    left [rest]. *)
Definition iteration (st : LoopState) (page : string) (rest : list string) : result LoopState :=
  let request :=
    {| network_id := normalizeNetwork service networkId;
       asset_id := assetId;
       address_id := addressId;
       start_time := startTime;
       end_time := endTime |} in
  match fetchStakingBalances service (page_requests (trace st)) with
  | Throw e => Throw e
  | Ok response =>
      match Asset_fetch service (asset_requests (trace st)) with
      | Throw e => Throw e
      | Ok asset =>
          Ok {| stakingBalances :=
                  stakingBalances st
                  ++ List.map (λ stakingBalance, {| model := stakingBalance; asset := asset |})
                       (data response);
                queue := enqueue response rest;
                trace :=
                  trace st ++ [FetchStakingBalances request 100 (cursor_of page);
                               AssetFetch networkId assetId] |}
      end
  end.

(** [while (queue.length > 0) { const page = queue.shift(); ... }] *)
Definition step (st : LoopState) : option (result LoopState) :=
  match queue st with
  | [] => None
  | page :: rest => Some (iteration st page rest)
  end.

(** The loop runs until the queue is empty; the state it ends in holds
    the accumulated records. *)
Fixpoint list_loop (fuel : nat) (st : LoopState) : option (result LoopState) :=
  match fuel with
  | O => None
  | S fuel =>
      match step st with
      | None => Some (Ok st)
      | Some (Throw e) => Some (Throw e)
      | Some (Ok st') => list_loop fuel st'
      end
  end.

(** The states the loop goes through. *)
Inductive reachable : LoopState → Prop :=
| reachable_initial : reachable initial
| reachable_step (st st' : LoopState) :
    reachable st → step st = Some (Ok st') → reachable st'.

(** A page asks for another request when it says there is more and
    hands over a cursor that is not empty. *)
Definition continues (response : Response) : bool :=
  has_more response && truthy (next_page response).

(** The records one page contributes. *)
Definition records_of (page : Response * Asset) : Datatypes.list StakingBalance :=
  List.map (λ stakingBalance, {| model := stakingBalance; asset := snd page |})
    (data (fst page)).

(** [return stakingBalances] after the loop. *)
Definition list (fuel : nat) : option (result (Datatypes.list StakingBalance)) :=
  match list_loop fuel initial with
  | None => None
  | Some (Throw e) => Some (Throw e)
  | Some (Ok st) => Some (Ok (stakingBalances st))
  end.

(** The request body of every page request. *)
Definition request_body : Request :=
  {| network_id := normalizeNetwork service networkId;
     asset_id := assetId;
     address_id := addressId;
     start_time := startTime;
     end_time := endTime |}.

(** The calls of a walk over [pages] that starts with [cursor]: a page
    request and a fetch of the asset per page, each page request with the
    cursor of the page before. *)
Fixpoint walk_events (cursor : option string) (pages : Datatypes.list Response)
    : Datatypes.list Event :=
  match pages with
  | [] => []
  | p :: pages =>
      FetchStakingBalances request_body 100 cursor
      :: AssetFetch networkId assetId
      :: walk_events (next_page p) pages
  end.

(** What every call of the loop looks like. *)
Definition well_formed_call (e : Event) : Prop :=
  match e with
  | FetchStakingBalances request limit page =>
      request = request_body ∧ limit = 100 ∧ page ≠ Some ""
  | AssetFetch network asset_ => network = networkId ∧ asset_ = assetId
  end.

End Listing.

End StakingBalance.

(** ** [BalanceMap] *)

Module BalanceMap.

(** The class [Balance] ([./balance]): the two properties [add] reads. *)
Record Balance (Decimal : Type) : Type := {
  amount : Decimal;
  assetId : string
}.

Arguments amount {_} _.
Arguments assetId {_} _.

(** What a caller may hand to [add]: a [Balance] or any other value. *)
Inductive Argument (Decimal : Type) : Type :=
| IsBalance (balance : Balance Decimal)
| NotBalance.

Arguments IsBalance {_} balance.
Arguments NotBalance {_}.

Section JsMap.

Context {Decimal : Type}.

(** A JavaScript [Map<string, Decimal>]: the entries in insertion order. *)
Definition JsMap : Type := list (string * Decimal).

(** [map.set(key, value)]: an existing key keeps its place and gets the
    new value, a new key goes to the end. *)
Fixpoint map_set (key : string) (value : Decimal) (map : JsMap) : JsMap :=
  match map with
  | [] => [(key, value)]
  | (k, v) :: map' =>
      if String.eqb k key then (k, value) :: map'
      else (k, v) :: map_set key value map'
  end.

(** [map.get(key)] *)
Fixpoint map_get (key : string) (map : JsMap) : option Decimal :=
  match map with
  | [] => None
  | (k, v) :: map' => if String.eqb k key then Some v else map_get key map'
  end.

Definition keys (map : JsMap) : list string := List.map fst map.

Definition add (balance : Argument Decimal) (map : JsMap) : result JsMap :=
  match balance with
  | NotBalance => Throw (Error "balance must be a Balance")
  | IsBalance balance => Ok (map_set (assetId balance) (amount balance) map)
  end.

(** The balance that decides the entry of [id]: the last one in the list
    that bears it. *)
Definition last_with (id : string) (balances : list (Balance Decimal))
    : option (Balance Decimal) :=
  last (filter (λ b, assetId b = id) balances).

(** The asset ids of a list in the order of their first occurrence. *)
Fixpoint first_occurrences (ids : list string) : list string :=
  match ids with
  | [] => []
  | id :: ids => id :: filter (λ other, other ≠ id) (first_occurrences ids)
  end.

Context {BalanceModel : Type}.

(** [Balance.fromModel] ([./balance]). *)
Variable Balance_fromModel : BalanceModel → Balance Decimal.

Definition fromBalances (balances : list BalanceModel) : result JsMap :=
  foldl
    (λ balanceMap balanceModel,
       Js.bind balanceMap (add (IsBalance (Balance_fromModel balanceModel))))
    (Ok []) balances.

End JsMap.

End BalanceMap.

(** ** The status table of the specification *)

Module StatusTable.

Inductive Source : Type :=
| Onchain
| Sponsored.

Section Table.

Context {SV : StatusValues}.
Context {TransactionModel SponsoredSendModel : Type}.

Definition source_of (d : Transfer.SendTransactionDelegate TransactionModel SponsoredSendModel)
    : Source :=
  match d with
  | Transfer.IsTransaction _ => Onchain
  | Transfer.IsSponsoredSend _ => Sponsored
  end.

(** The table as the specification gives it, row by row: the source of
    the raw status, its value, and the unified status. *)
Definition spec_status_table : list (Source * string * TransferStatus) :=
  [ (Onchain, TransactionStatus_PENDING, PENDING);
    (Sponsored, SponsoredSendStatus_PENDING, PENDING);
    (Sponsored, SponsoredSendStatus_SIGNED, PENDING);
    (Onchain, TransactionStatus_BROADCAST, BROADCAST);
    (Sponsored, SponsoredSendStatus_SUBMITTED, BROADCAST);
    (Onchain, TransactionStatus_COMPLETE, COMPLETE);
    (Sponsored, SponsoredSendStatus_COMPLETE, COMPLETE);
    (Onchain, TransactionStatus_FAILED, FAILED);
    (Sponsored, SponsoredSendStatus_FAILED, FAILED) ].

(** Two rows with the same raw value name the same unified status: the
    condition under which a table of values is a function of the value. *)
Definition rows_agree (r1 r2 : Source * string * TransferStatus) : bool :=
  implb (String.eqb (snd (fst r1)) (snd (fst r2))) (bool_decide (snd r1 = snd r2)).

Definition table_consistent : bool :=
  forallb (λ r1, forallb (rows_agree r1) spec_status_table) spec_status_table.

End Table.

End StatusTable.

(** ** Concrete collaborators used in the examples *)

Module Scenario.

(** The member values, spelled as the specification spells the statuses. *)
Definition names : StatusValues :=
  {| TransactionStatus_PENDING := "pending";
     TransactionStatus_BROADCAST := "broadcast";
     TransactionStatus_COMPLETE := "complete";
     TransactionStatus_FAILED := "failed";
     SponsoredSendStatus_PENDING := "pending";
     SponsoredSendStatus_SIGNED := "signed";
     SponsoredSendStatus_SUBMITTED := "submitted";
     SponsoredSendStatus_COMPLETE := "complete";
     SponsoredSendStatus_FAILED := "failed" |}.

(** A sub-record that stores what its delegate answers. *)
Record SubRecord : Type := {
  status : option string;
  signed_payload : option string;
  transaction_hash : option string;
  transaction_link : option string
}.

Definition sub_record_delegate : Delegate.SendDelegate SubRecord :=
  {| Delegate.isSigned := λ r, bool_decide (is_Some (signed_payload r));
     Delegate.getSignature := signed_payload;
     Delegate.getStatus := status;
     Delegate.getTransactionHash := transaction_hash;
     Delegate.getTransactionLink := transaction_link |}.

Definition Model : Type := Transfer.TransferModel SubRecord SubRecord.

Definition unsigned (st : string) : SubRecord :=
  {| status := Some st; signed_payload := None;
     transaction_hash := None; transaction_link := None |}.

Definition signed (st : string) : SubRecord :=
  {| status := Some st; signed_payload := Some "0xf86b";
     transaction_hash := Some "0xabc"; transaction_link := Some "https://explorer/tx/0xabc" |}.

Definition transfer_with (tx ss : option SubRecord) : Model :=
  {| Transfer.transfer_id := "transfer-1";
     Transfer.network_id := "base-sepolia";
     Transfer.wallet_id := "wallet-1";
     Transfer.address_id := "0xfrom";
     Transfer.destination := "0xto";
     Transfer.asset_id := "eth";
     Transfer.amount := "1000";
     Transfer.transaction := tx;
     Transfer.sponsored_send := ss |}.

Definition onchain (st : string) : Model := transfer_with (Some (signed st)) None.
Definition sponsored (st : string) : Model := transfer_with None (Some (signed st)).
Definition bare : Model := transfer_with None None.

(** A heap with one [Transfer] instance, at time 0, before any call. *)
Definition world_with (model : Model) : @Transfer.World SubRecord SubRecord :=
  {| Transfer.heap := [model]; Transfer.now := 0; Transfer.trace := [] |}.

(** A server whose [n]-th answer to [getTransfer] is an onchain transfer
    in status [statuses !! n] ([rest] once the list is used up), every
    answer taking [latency] milliseconds; [broadcastTransfer] answers with
    the transfer in status "broadcast". *)
Definition server (latency : Z) (statuses : list string) (rest : string)
    : @Transfer.Api SubRecord SubRecord :=
  {| Transfer.getTransfer := λ n, (latency, Ok (onchain (default rest (statuses !! n))));
     Transfer.broadcastTransfer := λ n, (latency, Ok (onchain "broadcast")) |}.

(** Pages of numbered records. *)
Definition page (first count : nat) (more : bool) (next : option string)
    : StakingBalance.FetchStakingBalances200Response nat :=
  {| StakingBalance.data := seq first count;
     StakingBalance.has_more := more;
     StakingBalance.next_page := next |}.

Definition paged (pages : list (StakingBalance.FetchStakingBalances200Response nat))
    : @StakingBalance.Service nat string :=
  {| StakingBalance.fetchStakingBalances :=
       λ n, match pages !! n with
            | Some p => Ok p
            | None => Throw (APIError "no such page")
            end;
     StakingBalance.Asset_fetch := λ _, Ok "eth";
     StakingBalance.normalizeNetwork := λ network, network |}.

Definition two_pages : list (StakingBalance.FetchStakingBalances200Response nat) :=
  [page 0 100 true (Some "p2"); page 100 37 false None].

(** Three pages of two records; the middle one says there is more and
    gives no cursor. *)
Definition broken_pages : list (StakingBalance.FetchStakingBalances200Response nat) :=
  [page 0 2 true (Some "p2"); page 2 2 true None; page 4 2 false None].

Definition staking_balance (n : nat) : @StakingBalance.StakingBalance nat string :=
  {| StakingBalance.model := n; StakingBalance.asset := "eth" |}.

(** Balance models as pairs of an asset id and an amount. *)
Definition balance_of (model : string * Z) : BalanceMap.Balance Z :=
  {| BalanceMap.amount := snd model; BalanceMap.assetId := fst model |}.

(** A server that answers the [n]-th call of [getTransfer] with
    [answers !! n], and with [rest] once the list is used up;
    [broadcastTransfer] is answered with [rest]. *)
Definition scripted (latency : Z) (answers : list (result Model)) (rest : result Model)
    : @Transfer.Api SubRecord SubRecord :=
  {| Transfer.getTransfer := λ n, (latency, default rest (answers !! n));
     Transfer.broadcastTransfer := λ n, (latency, rest) |}.

(** A service that always has one more page. *)
Definition endless : @StakingBalance.Service nat string :=
  {| StakingBalance.fetchStakingBalances := λ n, Ok (page n 1 true (Some "next"));
     StakingBalance.Asset_fetch := λ _, Ok "eth";
     StakingBalance.normalizeNetwork := λ network, network |}.

End Scenario.

(** * Properties of [Transfer] *)

(** Membership in a list that is written out. *)
Ltac in_table :=
  repeat first [ apply list_elem_of_here | apply list_elem_of_further ].

Section TransferStatusProps.

Import Transfer StatusTable.

Context {SV : StatusValues}.
Context {TransactionModel SponsoredSendModel : Type}.
Context {TxD : Delegate.SendDelegate TransactionModel}.
Context {SsD : Delegate.SendDelegate SponsoredSendModel}.

Local Abbreviation Model := (TransferModel TransactionModel SponsoredSendModel).

Lemma strict_eq_Some (s l : string) : strict_eq (Some s) l = true ↔ s = l.
Proof. simpl. apply String.eqb_eq. Qed.

Lemma status_switch_undefined : status_switch None = None.
Proof. reflexivity. Qed.

(** Every answer of the [switch] is a row of the table. *)
Lemma status_switch_sound (s : string) (u : TransferStatus) :
  status_switch (Some s) = Some u → ∃ k, (k, s, u) ∈ spec_status_table.
Proof.
  unfold status_switch, spec_status_table, strict_eq.
  repeat match goal with
         | |- (if String.eqb s ?l then _ else _) = _ → _ =>
             destruct (String.eqb_spec s l) as [->|?];
             [ intros [= <-]; eexists; in_table | ]
         end.
  intros [=].
Qed.

(** The [default] branch is taken only for a value no row mentions. *)
Lemma status_switch_complete (s : string) :
  status_switch (Some s) = None → ∀ k u, (k, s, u) ∉ spec_status_table.
Proof.
  unfold status_switch, spec_status_table, strict_eq.
  repeat match goal with
         | |- (if String.eqb s ?l then _ else _) = _ → _ =>
             destruct (String.eqb_spec s l) as [->|?]; [ intros [=] | ]
         end.
  intros _ k u Hin. rewrite !elem_of_cons, elem_of_nil in Hin.
  repeat destruct Hin as [Hin|Hin]; try done; injection Hin as -> -> ->; done.
Qed.

Lemma table_consistent_functional :
  table_consistent = true →
  ∀ k1 k2 s u1 u2,
    (k1, s, u1) ∈ spec_status_table → (k2, s, u2) ∈ spec_status_table → u1 = u2.
Proof.
  unfold table_consistent. intros Hc k1 k2 s u1 u2 H1 H2.
  rewrite forallb_forall in Hc.
  apply list_elem_of_In in H1, H2.
  specialize (Hc _ H1). rewrite forallb_forall in Hc. specialize (Hc _ H2).
  unfold rows_agree in Hc. simpl in Hc. rewrite String.eqb_refl in Hc. simpl in Hc.
  by apply bool_decide_eq_true in Hc.
Qed.

Lemma status_switch_row (k : Source) (s : string) (u : TransferStatus) :
  table_consistent = true →
  (k, s, u) ∈ spec_status_table → status_switch (Some s) = Some u.
Proof.
  intros Hc Hin. destruct (status_switch (Some s)) as [u'|] eqn:E.
  - apply status_switch_sound in E as [k' Hin'].
    f_equal. exact (table_consistent_functional Hc _ _ _ _ _ Hin' Hin).
  - exfalso. exact (status_switch_complete _ E _ _ Hin).
Qed.

Lemma status_switch_unlisted (status : option string) :
  (∀ s, status = Some s → ∀ k u, (k, s, u) ∉ spec_status_table) →
  status_switch status = None.
Proof.
  intros Hno. destruct status as [s|]; [|reflexivity].
  destruct (status_switch (Some s)) as [u|] eqn:E; [|reflexivity].
  apply status_switch_sound in E as [k Hin]. exfalso. exact (Hno s eq_refl k u Hin).
Qed.

(** C1, as the code has it. With member values for which the table of
    section 4.2 is consistent, [getStatus] of a transfer that has a
    delegate returns the unified status of the row of the delegate's raw
    status, for each of the nine rows. The [switch] looks at the value
    only: a raw status whose value a row lists for the other kind of
    delegate gets the unified status of that row. When the raw status is
    [undefined] or a value that no row lists, [getStatus] returns
    [undefined] and does not throw. *)
Theorem C1_getStatus_follows_table (model : Model)
    (d : SendTransactionDelegate TransactionModel SponsoredSendModel) :
  table_consistent = true →
  getSendTransactionDelegate model = Some d →
  (∀ s u, delegate_getStatus d = Some s →
          (source_of d, s, u) ∈ spec_status_table →
          getStatus model = Ok (Some u))
  ∧ (∀ k s u, delegate_getStatus d = Some s →
              (k, s, u) ∈ spec_status_table →
              getStatus model = Ok (Some u))
  ∧ ((∀ s, delegate_getStatus d = Some s → ∀ k u, (k, s, u) ∉ spec_status_table) →
     getStatus model = Ok None).
Proof.
  intros Hc Hd. unfold getStatus. rewrite Hd. split_and!.
  - intros s u Hs Hin. rewrite Hs. f_equal. by eapply status_switch_row.
  - intros k s u Hs Hin. rewrite Hs. f_equal. by eapply status_switch_row.
  - intros Hno. f_equal. by apply status_switch_unlisted.
Qed.

(** C3. A transfer without [transaction] and without [sponsored_send]:
    [getTransactionHash] and [getTransactionLink] return [undefined], but
    [getStatus] calls a method on [undefined] and throws a [TypeError]. *)
Theorem C3_no_delegate_getStatus_throws (model : Model) :
  transaction model = None →
  sponsored_send model = None →
  getTransactionHash model = Ok None
  ∧ getTransactionLink model = Ok None
  ∧ getStatus model
    = Throw (TypeError "Cannot read properties of undefined (reading 'getStatus')").
Proof.
  intros Htx Hss.
  assert (Hd : getSendTransactionDelegate model = None).
  { unfold getSendTransactionDelegate, getTransaction, getSponsoredSend.
    by rewrite Htx, Hss. }
  unfold getTransactionHash, getTransactionLink, getStatus. by rewrite Hd.
Qed.

(** X1. The delegate is the transaction whenever the model has one,
    whether or not it also has a sponsored send; the sponsored send is
    used only when there is no transaction. Hash, link and status are
    those of the delegate so chosen. *)
Theorem X1_delegate_prefers_transaction (model : Model) :
  (∀ tx, transaction model = Some tx →
     getSendTransactionDelegate model = Some (IsTransaction tx)
     ∧ getTransactionHash model = Ok (Delegate.getTransactionHash tx)
     ∧ getTransactionLink model = Ok (Delegate.getTransactionLink tx)
     ∧ getStatus model = Ok (status_switch (Delegate.getStatus tx)))
  ∧ (∀ ss, transaction model = None → sponsored_send model = Some ss →
       getSendTransactionDelegate model = Some (IsSponsoredSend ss)
       ∧ getTransactionHash model = Ok (Delegate.getTransactionHash ss)
       ∧ getTransactionLink model = Ok (Delegate.getTransactionLink ss)
       ∧ getStatus model = Ok (status_switch (Delegate.getStatus ss))).
Proof.
  split.
  - intros tx Htx.
    assert (Hd : getSendTransactionDelegate model = Some (IsTransaction tx)).
    { unfold getSendTransactionDelegate, getTransaction. by rewrite Htx. }
    unfold getTransactionHash, getTransactionLink, getStatus. by rewrite Hd.
  - intros ss Htx Hss.
    assert (Hd : getSendTransactionDelegate model = Some (IsSponsoredSend ss)).
    { unfold getSendTransactionDelegate, getTransaction, getSponsoredSend.
      by rewrite Htx, Hss. }
    unfold getTransactionHash, getTransactionLink, getStatus. by rewrite Hd.
Qed.

(** X2. Whatever the member values are, [getStatus] has three outcomes
    only: it throws, and then the model has neither sub-record; it returns
    [undefined]; or it returns a status [u], and then the model has a
    delegate whose raw status is a value that a row of the table lists
    with [u]. *)
Theorem X2_getStatus_outcomes (model : Model) :
  (∀ e, getStatus model = Throw e →
     transaction model = None ∧ sponsored_send model = None)
  ∧ (∀ u, getStatus model = Ok (Some u) →
       ∃ d s k, getSendTransactionDelegate model = Some d
                ∧ delegate_getStatus d = Some s
                ∧ (k, s, u) ∈ spec_status_table).
Proof.
  unfold getStatus. split.
  - intros e. unfold getSendTransactionDelegate, getTransaction, getSponsoredSend.
    destruct (transaction model); [discriminate|].
    destruct (sponsored_send model); [discriminate|]. done.
  - intros u. destruct (getSendTransactionDelegate model) as [d|]; [|discriminate].
    intros [= Hu]. destruct (delegate_getStatus d) as [s|] eqn:Hs; [|discriminate].
    apply status_switch_sound in Hu as [k Hin]. by exists d, s, k.
Qed.

End TransferStatusProps.

Section TransferProtocolProps.

Import Transfer StatusTable.

Context {SV : StatusValues}.
Context {TransactionModel SponsoredSendModel : Type}.
Context {TxD : Delegate.SendDelegate TransactionModel}.
Context {SsD : Delegate.SendDelegate SponsoredSendModel}.

Local Abbreviation Model := (TransferModel TransactionModel SponsoredSendModel).
Local Abbreviation World := (@World TransactionModel SponsoredSendModel).

Variable api : @Api TransactionModel SponsoredSendModel.

(** *** Counting the events of a trace *)

Lemma calls_app (tr1 tr2 : list Event) : calls (tr1 ++ tr2) = calls tr1 + calls tr2.
Proof. unfold calls. by rewrite List.filter_app, length_app. Qed.

Lemma sleeps_app (tr1 tr2 : list Event) : sleeps (tr1 ++ tr2) = sleeps tr1 + sleeps tr2.
Proof. unfold sleeps. by rewrite List.filter_app, length_app. Qed.

(** *** [reload] *)

Lemma reload_ok (this : ref) (w : World) (model data : Model) (latency : Z) :
  heap w !! this = Some model →
  getTransfer api (calls (trace w)) = (latency, Ok data) →
  reload api this w = Some (Ok tt, reloaded this model data latency w).
Proof.
  intros Hm Hr. unfold reload, and_then, read_model, call_getTransfer, write_model.
  by rewrite Hm, Hr.
Qed.

Lemma reloaded_lookup (this : ref) (w : World) (model data : Model) (latency : Z) :
  heap w !! this = Some model →
  heap (reloaded this model data latency w) !! this = Some data.
Proof.
  intros Hm. simpl. apply list_lookup_insert_eq. by eapply lookup_lt_Some.
Qed.

Lemma reloaded_calls (this : ref) (w : World) (model data : Model) (latency : Z) :
  calls (trace (reloaded this model data latency w)) = calls (trace w) + 1.
Proof. simpl. by rewrite calls_app. Qed.

Lemma reloaded_sleeps (this : ref) (w : World) (model data : Model) (latency : Z) :
  sleeps (trace (reloaded this model data latency w)) = sleeps (trace w).
Proof. simpl. rewrite sleeps_app. apply Nat.add_0_r. Qed.

(** *** [broadcast] *)

Lemma broadcast_unsigned (this : ref) (w : World) (model : Model) :
  heap w !! this = Some model →
  not_signed model = true →
  broadcast api this w = Some (Throw (Error "Cannot broadcast unsigned Transfer"), w).
Proof.
  intros Hm Hs. unfold broadcast, and_then, read_model, throw. by rewrite Hm, Hs.
Qed.

Lemma broadcast_ok (this : ref) (w : World) (model data : Model) (latency : Z) :
  heap w !! this = Some model →
  not_signed model = false →
  broadcastTransfer api (calls (trace w)) = (latency, Ok data) →
  ∃ payload,
    broadcast api this w
    = Some (Ok (length (heap w)),
            {| heap := heap w ++ [data];
               now := now w + latency;
               trace := trace w ++ [BroadcastTransfer (getWalletId model)
                                      (getFromAddressId model) (getId model) payload] |}).
Proof.
  intros Hm Hs Hr. unfold broadcast, and_then, read_model. rewrite Hm, Hs.
  unfold not_signed, signed_payload_of, lift in *.
  destruct (getSendTransactionDelegate model) as [d|]; [|discriminate].
  exists (delegate_getSignature d).
  unfold call_broadcastTransfer. rewrite Hr. reflexivity.
Qed.

(** C4. When the delegate of a transfer reports [isSigned() = false], or
    when the transfer has no delegate, [broadcast] throws the error
    "Cannot broadcast unsigned Transfer" and leaves the world as it was:
    no event is added to the trace, so no endpoint was called. *)
Theorem C4_broadcast_unsigned_makes_no_call (this : ref) (w : World) (model : Model) :
  heap w !! this = Some model →
  (∀ d, getSendTransactionDelegate model = Some d → delegate_isSigned d = false) →
  broadcast api this w = Some (Throw (Error "Cannot broadcast unsigned Transfer"), w)
  ∧ ∀ r w', broadcast api this w = Some (r, w') → trace w' = trace w.
Proof.
  intros Hm Hd.
  assert (Hb : broadcast api this w
               = Some (Throw (Error "Cannot broadcast unsigned Transfer"), w)).
  { apply (broadcast_unsigned this w model Hm). unfold not_signed.
    destruct (getSendTransactionDelegate model) as [d|]; [|reflexivity].
    by rewrite (Hd d eq_refl). }
  split; [exact Hb|]. intros r w' Hb'. rewrite Hb in Hb'. by injection Hb' as _ <-.
Qed.

(** C5, as the code has it. A successful [reload] stores exactly the
    record the server returned in the instance, in place of the former
    one, and touches no other instance. A successful [broadcast] returns a
    new instance that holds exactly the record the server returned; the
    instance it was called on keeps its former record. *)
Theorem C5_reload_replaces_broadcast_returns_new (this : ref) (w : World)
    (model data : Model) (latency : Z) :
  heap w !! this = Some model →
  (getTransfer api (calls (trace w)) = (latency, Ok data) →
   ∃ w', reload api this w = Some (Ok tt, w')
         ∧ heap w' !! this = Some data
         ∧ ∀ other, other ≠ this → heap w' !! other = heap w !! other)
  ∧ (not_signed model = false →
     broadcastTransfer api (calls (trace w)) = (latency, Ok data) →
     ∃ fresh w', broadcast api this w = Some (Ok fresh, w')
                 ∧ fresh ≠ this
                 ∧ heap w !! fresh = None
                 ∧ heap w' !! fresh = Some data
                 ∧ heap w' !! this = Some model
                 ∧ ∀ other, other ≠ fresh → heap w' !! other = heap w !! other).
Proof.
  intros Hm. split.
  - intros Hr. eexists. split; [by apply (reload_ok this w model data latency)|]. split.
    + by eapply reloaded_lookup.
    + intros other Hne. simpl. by apply list_lookup_insert_ne.
  - intros Hs Hr.
    destruct (broadcast_ok this w model data latency Hm Hs Hr) as [payload Hb].
    pose proof (lookup_lt_Some _ _ _ Hm) as Hlt.
    eexists _, _. split; [exact Hb|]. simpl. split_and!.
    + lia.
    + by apply lookup_ge_None.
    + rewrite lookup_app_r by done. by rewrite Nat.sub_diag.
    + by rewrite lookup_app_l.
    + intros other Hne. destruct (decide (other < length (heap w))) as [Hlt'|Hge].
      * by rewrite lookup_app_l.
      * rewrite lookup_app_r by lia.
        destruct (other - length (heap w)) as [|k] eqn:Hk; [lia|].
        simpl. symmetry. apply lookup_ge_None. lia.
Qed.

(** *** [wait] *)

Lemma wait_loop_timed_out (fuel : nat) (this : ref) (start interval timeout : Z) (w : World) :
  (timeout ≤ now w - start)%Z →
  wait_loop api (S fuel) this start interval timeout w
  = Some (Throw (TimeoutError "Transfer timed out"), w).
Proof.
  intros Ht. cbn [wait_loop]. unfold and_then at 1, date_now.
  destruct (Z.ltb_spec (now w - start) timeout); [lia|reflexivity].
Qed.

Lemma wait_loop_poll (fuel : nat) (this : ref) (start interval timeout : Z) (w : World)
    (model data : Model) (latency : Z) (status : option TransferStatus) :
  (now w - start < timeout)%Z →
  heap w !! this = Some model →
  getTransfer api (calls (trace w)) = (latency, Ok data) →
  getStatus data = Ok status →
  wait_loop api (S fuel) this start interval timeout w
  = if is_terminal status then Some (Ok this, reloaded this model data latency w)
    else wait_loop api fuel this start interval timeout
           (slept interval (reloaded this model data latency w)).
Proof.
  intros Ht Hm Hr Hs. cbn [wait_loop]. unfold and_then at 1, date_now.
  destruct (Z.ltb_spec (now w - start) timeout); [|lia].
  unfold and_then at 1. rewrite (reload_ok this w model data latency Hm Hr).
  unfold and_then at 1, read_model. rewrite (reloaded_lookup this w model data latency Hm).
  unfold and_then at 1, lift. rewrite Hs.
  destruct (is_terminal status); reflexivity.
Qed.




Lemma total_latency_nonneg (rs : list (Z * Model)) :
  Forall non_terminal rs → (0 ≤ total_latency rs)%Z.
Proof.
  induction 1 as [|r rs [Hr _] _ IH]; simpl; lia.
Qed.

Lemma slept_calls (ms : Z) (w : World) : calls (trace (slept ms w)) = calls (trace w).
Proof. simpl. rewrite calls_app. apply Nat.add_0_r. Qed.

Lemma slept_sleeps (ms : Z) (w : World) : sleeps (trace (slept ms w)) = sleeps (trace w) + 1.
Proof. simpl. by rewrite sleeps_app. Qed.

(** After [length rs] reloads in a non-terminal status, the first terminal
    record ends the loop: one sleep per earlier reload, none after the
    last one. *)
Lemma wait_loop_returns_at_first_terminal (this : ref) (start interval timeout : Z)
    (latency : Z) (data : Model) (status : option TransferStatus) :
  (0 ≤ interval)%Z →
  getStatus data = Ok status →
  is_terminal status = true →
  ∀ (rs : list (Z * Model)) (fuel : nat) (w : World),
    is_Some (heap w !! this) →
    length rs < fuel →
    Forall non_terminal rs →
    (∀ i r, rs !! i = Some r → getTransfer api (calls (trace w) + i) = (fst r, Ok (snd r))) →
    getTransfer api (calls (trace w) + length rs) = (latency, Ok data) →
    (now w + total_latency rs + Z.of_nat (length rs) * interval - start < timeout)%Z →
    ∃ w', wait_loop api fuel this start interval timeout w = Some (Ok this, w')
          ∧ heap w' !! this = Some data
          ∧ calls (trace w') = calls (trace w) + length rs + 1
          ∧ sleeps (trace w') = sleeps (trace w) + length rs
          ∧ (∃ walletId addressId transferId,
                last (trace w') = Some (GetTransfer walletId addressId transferId))
          ∧ now w' = (now w + total_latency rs + Z.of_nat (length rs) * interval + latency)%Z.
Proof.
  intros Hi Hs Hterm. induction rs as [|[l m] rs IH]; intros fuel w [model Hm] Hfuel Hrs Hget Hlast Ht;
    (destruct fuel as [|fuel]; [simpl in Hfuel; lia|]).
  - simpl in Hlast, Ht. rewrite Nat.add_0_r in Hlast.
    rewrite (wait_loop_poll fuel this start interval timeout w model data latency status)
      by (done || lia).
    rewrite Hterm. eexists. split; [reflexivity|].
    rewrite reloaded_calls, reloaded_sleeps, (reloaded_lookup this w model data latency Hm).
    split_and!; simpl; try lia; [reflexivity|].
    do 3 eexists. apply last_snoc.
  - apply Forall_cons in Hrs as [[Hl (st & Hst & Hnt)] Hrs]. simpl in Hl, Hst.
    pose proof (total_latency_nonneg rs Hrs) as Hnn.
    pose proof (Hget 0 (l, m) eq_refl) as H0. rewrite Nat.add_0_r in H0. simpl in H0.
    simpl in Ht, Hfuel.
    rewrite (wait_loop_poll fuel this start interval timeout w model m l st)
      by (done || lia).
    rewrite Hnt.
    set (w2 := slept interval (reloaded this model m l w)).
    assert (Hc2 : calls (trace w2) = calls (trace w) + 1).
    { unfold w2. by rewrite slept_calls, reloaded_calls. }
    assert (Hs2 : sleeps (trace w2) = sleeps (trace w) + 1).
    { unfold w2. by rewrite slept_sleeps, reloaded_sleeps. }
    destruct (IH fuel w2) as (w' & Hrun & Hheap & Hcalls & Hsleeps & Hev & Hnow).
    + exists m. unfold w2. simpl. apply list_lookup_insert_eq. by eapply lookup_lt_Some.
    + lia.
    + exact Hrs.
    + intros i r Hr. rewrite Hc2.
      replace (calls (trace w) + 1 + i) with (calls (trace w) + S i) by lia.
      by apply Hget.
    + rewrite Hc2.
      replace (calls (trace w) + 1 + length rs) with (calls (trace w) + length ((l, m) :: rs))
        by (simpl; lia).
      exact Hlast.
    + unfold w2. simpl. lia.
    + exists w'. split; [exact Hrun|]. split; [exact Hheap|].
      rewrite Hcalls, Hsleeps, Hc2, Hs2, Hnow. unfold w2. simpl.
      split_and!; try lia. exact Hev.
Qed.

Lemma delegate_of_transaction (model : Model) (tx : TransactionModel) :
  transaction model = Some tx →
  getSendTransactionDelegate model = Some (IsTransaction tx).
Proof.
  intros Htx. unfold getSendTransactionDelegate, getTransaction. by rewrite Htx.
Qed.

Lemma getStatus_onchain (model : Model) (tx : TransactionModel) (s : string)
    (u : TransferStatus) :
  table_consistent = true →
  transaction model = Some tx →
  Delegate.getStatus tx = Some s →
  (Onchain, s, u) ∈ spec_status_table →
  getStatus model = Ok (Some u).
Proof.
  intros Hc Htx Hs Hin. unfold getStatus.
  rewrite (delegate_of_transaction model tx Htx). simpl. rewrite Hs.
  f_equal. by eapply status_switch_row.
Qed.


(** C7. [wait] returns the instance at the first reload whose status is
    COMPLETE or FAILED: after [n] reloads in a non-terminal status and one
    in a terminal status, all within the timeout, it has made [n + 1]
    calls and [n] sleeps, and the last event is the call, not a sleep. In
    particular, with an interval of 200 ms and a timeout of 10000 ms, the
    onchain statuses pending, broadcast, complete give exactly 2 sleeps
    and a return at the 3rd reload in status COMPLETE. *)
Theorem C7_wait_returns_at_first_terminal_reload :
  (∀ (this : ref) (w : World) (intervalMs timeoutMs : Z) (rs : list (Z * Model))
     (latency : Z) (data : Model) (status : option TransferStatus) (fuel : nat),
      is_Some (heap w !! this) →
      (0 ≤ intervalMs)%Z →
      length rs < fuel →
      Forall non_terminal rs →
      (∀ i r, rs !! i = Some r →
              getTransfer api (calls (trace w) + i) = (fst r, Ok (snd r))) →
      getTransfer api (calls (trace w) + length rs) = (latency, Ok data) →
      getStatus data = Ok status →
      is_terminal status = true →
      (total_latency rs + Z.of_nat (length rs) * intervalMs < timeoutMs)%Z →
      ∃ w', wait api fuel this intervalMs timeoutMs w = Some (Ok this, w')
            ∧ heap w' !! this = Some data
            ∧ calls (trace w') = calls (trace w) + length rs + 1
            ∧ sleeps (trace w') = sleeps (trace w) + length rs
            ∧ ∃ walletId addressId transferId,
                last (trace w') = Some (GetTransfer walletId addressId transferId))
  ∧ (∀ (this : ref) (w : World) (m1 m2 m3 : Model) (tx1 tx2 tx3 : TransactionModel)
       (l1 l2 l3 : Z) (fuel : nat),
        table_consistent = true →
        is_Some (heap w !! this) →
        getTransfer api (calls (trace w)) = (l1, Ok m1) →
        getTransfer api (calls (trace w) + 1) = (l2, Ok m2) →
        getTransfer api (calls (trace w) + 2) = (l3, Ok m3) →
        transaction m1 = Some tx1 → Delegate.getStatus tx1 = Some TransactionStatus_PENDING →
        transaction m2 = Some tx2 → Delegate.getStatus tx2 = Some TransactionStatus_BROADCAST →
        transaction m3 = Some tx3 → Delegate.getStatus tx3 = Some TransactionStatus_COMPLETE →
        (0 ≤ l1)%Z → (0 ≤ l2)%Z → (l1 + l2 + 400 < 10000)%Z →
        2 < fuel →
        ∃ w', wait api fuel this 200 10000 w = Some (Ok this, w')
              ∧ sleeps (trace w') = sleeps (trace w) + 2
              ∧ calls (trace w') = calls (trace w) + 3
              ∧ heap w' !! this = Some m3
              ∧ getStatus m3 = Ok (Some COMPLETE)).
Proof.
  split.
  - intros this w intervalMs timeoutMs rs latency data status fuel
      Hthis Hi Hfuel Hrs Hget Hlast Hs Hterm Ht.
    change (wait api fuel this intervalMs timeoutMs w)
      with (wait_loop api fuel this (now w) intervalMs timeoutMs w).
    destruct (wait_loop_returns_at_first_terminal this (now w) intervalMs timeoutMs
                latency data status Hi Hs Hterm rs fuel w Hthis Hfuel Hrs Hget Hlast)
      as (w' & Hrun & Hheap & Hcalls & Hsleeps & Hev & _); [lia|].
    by exists w'.
  - intros this w m1 m2 m3 tx1 tx2 tx3 l1 l2 l3 fuel
      Hc Hthis H1 H2 H3 Ht1 Hs1 Ht2 Hs2 Ht3 Hs3 Hl1 Hl2 Hsum Hfuel.
    assert (Hu1 : getStatus m1 = Ok (Some PENDING)).
    { apply (getStatus_onchain m1 tx1 _ PENDING Hc Ht1 Hs1).
      unfold spec_status_table. in_table. }
    assert (Hu2 : getStatus m2 = Ok (Some BROADCAST)).
    { apply (getStatus_onchain m2 tx2 _ BROADCAST Hc Ht2 Hs2).
      unfold spec_status_table. in_table. }
    assert (Hu3 : getStatus m3 = Ok (Some COMPLETE)).
    { apply (getStatus_onchain m3 tx3 _ COMPLETE Hc Ht3 Hs3).
      unfold spec_status_table. in_table. }
    change (wait api fuel this 200 10000 w)
      with (wait_loop api fuel this (now w) 200 10000 w).
    destruct (wait_loop_returns_at_first_terminal this (now w) 200 10000
                l3 m3 (Some COMPLETE) ltac:(lia) Hu3 eq_refl
                [(l1, m1); (l2, m2)] fuel w Hthis)
      as (w' & Hrun & Hheap & Hcalls & Hsleeps & _ & _).
    + simpl. lia.
    + repeat constructor; simpl; try lia; eexists; (split; [eassumption|reflexivity]).
    + intros [|[|i]] r [= <-]; simpl; [by rewrite Nat.add_0_r|done].
    + exact H3.
    + simpl. lia.
    + exists w'. simpl in Hcalls, Hsleeps. split_and!; try done; lia.
Qed.

(** *** Failures of [broadcast] and [reload] *)

Lemma reload_rejected (this : ref) (w : World) (model : Model) (latency : Z) (e : JsError) :
  heap w !! this = Some model →
  getTransfer api (calls (trace w)) = (latency, Throw e) →
  reload api this w = Some (Throw e, rejected model latency w).
Proof.
  intros Hm Hr. unfold reload, and_then, read_model, call_getTransfer.
  by rewrite Hm, Hr.
Qed.

(** X3. When the call of [broadcastTransfer] is rejected, [broadcast]
    throws the error as it came, after that one call; no instance is
    created and every instance keeps its record. *)
Theorem X3_broadcast_rejected_keeps_heap (this : ref) (w : World) (model : Model)
    (latency : Z) (e : JsError) :
  heap w !! this = Some model →
  not_signed model = false →
  broadcastTransfer api (calls (trace w)) = (latency, Throw e) →
  ∃ w', broadcast api this w = Some (Throw e, w')
        ∧ heap w' = heap w
        ∧ calls (trace w') = calls (trace w) + 1
        ∧ sleeps (trace w') = sleeps (trace w).
Proof.
  intros Hm Hs Hr. unfold broadcast, and_then, read_model. rewrite Hm, Hs.
  unfold not_signed, signed_payload_of, lift in *.
  destruct (getSendTransactionDelegate model) as [d|]; [|discriminate].
  unfold call_broadcastTransfer. rewrite Hr. eexists. split; [reflexivity|].
  simpl. rewrite calls_app, sleeps_app. split_and!; [done|done|apply Nat.add_0_r].
Qed.

(** X4. [broadcast] of a transfer whose delegate is signed makes exactly
    one call, whatever the answer: [broadcastTransfer] with the wallet id,
    the address id and the transfer id of the record, and the signature of
    the delegate as payload. *)
Theorem X4_broadcast_sends_signature (this : ref) (w : World) (model : Model)
    (d : SendTransactionDelegate TransactionModel SponsoredSendModel) :
  heap w !! this = Some model →
  getSendTransactionDelegate model = Some d →
  delegate_isSigned d = true →
  ∃ r w', broadcast api this w = Some (r, w')
          ∧ trace w' = trace w ++ [BroadcastTransfer (wallet_id model) (address_id model)
                                     (transfer_id model) (delegate_getSignature d)].
Proof.
  intros Hm Hd Hs. unfold broadcast, and_then, read_model. rewrite Hm.
  unfold not_signed, signed_payload_of, lift. rewrite Hd, Hs. simpl.
  unfold call_broadcastTransfer.
  destruct (broadcastTransfer api (calls (trace w))) as [latency [data|e]]; simpl;
    eexists _, _; (split; [reflexivity|reflexivity]).
Qed.

(** X5. When the call of [getTransfer] is rejected, [reload] throws the
    error as it came and the instance keeps the record it had; the call
    was made with the ids of that record. *)
Theorem X5_reload_rejected_keeps_record (this : ref) (w : World) (model : Model)
    (latency : Z) (e : JsError) :
  heap w !! this = Some model →
  getTransfer api (calls (trace w)) = (latency, Throw e) →
  ∃ w', reload api this w = Some (Throw e, w')
        ∧ heap w' = heap w
        ∧ trace w' = trace w ++ [GetTransfer (wallet_id model) (address_id model)
                                   (transfer_id model)].
Proof.
  intros Hm Hr. eexists. split; [by apply (reload_rejected this w model latency e)|].
  by split.
Qed.

(** *** More on [wait] *)

Lemma wait_loop_rejected (fuel : nat) (this : ref) (start interval timeout : Z) (w : World)
    (model : Model) (latency : Z) (e : JsError) :
  (now w - start < timeout)%Z →
  heap w !! this = Some model →
  getTransfer api (calls (trace w)) = (latency, Throw e) →
  wait_loop api (S fuel) this start interval timeout w
  = Some (Throw e, rejected model latency w).
Proof.
  intros Ht Hm Hr. cbn [wait_loop]. unfold and_then at 1, date_now.
  destruct (Z.ltb_spec (now w - start) timeout); [|lia].
  unfold and_then at 1. by rewrite (reload_rejected this w model latency e Hm Hr).
Qed.

Lemma wait_loop_status_throws (fuel : nat) (this : ref) (start interval timeout : Z)
    (w : World) (model data : Model) (latency : Z) (e : JsError) :
  (now w - start < timeout)%Z →
  heap w !! this = Some model →
  getTransfer api (calls (trace w)) = (latency, Ok data) →
  getStatus data = Throw e →
  wait_loop api (S fuel) this start interval timeout w
  = Some (Throw e, reloaded this model data latency w).
Proof.
  intros Ht Hm Hr Hs. cbn [wait_loop]. unfold and_then at 1, date_now.
  destruct (Z.ltb_spec (now w - start) timeout); [|lia].
  unfold and_then at 1. rewrite (reload_ok this w model data latency Hm Hr).
  unfold and_then at 1, read_model. rewrite (reloaded_lookup this w model data latency Hm).
  unfold and_then at 1, lift. by rewrite Hs.
Qed.

Lemma wait_loop_dangling (fuel : nat) (this : ref) (start interval timeout : Z) (w : World) :
  (now w - start < timeout)%Z →
  heap w !! this = None →
  wait_loop api (S fuel) this start interval timeout w = None.
Proof.
  intros Ht Hm. cbn [wait_loop]. unfold and_then at 1, date_now.
  destruct (Z.ltb_spec (now w - start) timeout); [|lia].
  unfold and_then at 1, reload, and_then, read_model. by rewrite Hm.
Qed.

(** The loop after [length rs] reloads in a non-terminal status. *)
Lemma wait_loop_after_polls (this : ref) (start interval timeout : Z) :
  (0 ≤ interval)%Z →
  ∀ (rs : list (Z * Model)) (fuel : nat) (w : World),
    is_Some (heap w !! this) →
    Forall non_terminal rs →
    (∀ i r, rs !! i = Some r → getTransfer api (calls (trace w) + i) = (fst r, Ok (snd r))) →
    (now w + total_latency rs + Z.of_nat (length rs) * interval - start < timeout)%Z →
    ∃ w', wait_loop api (length rs + fuel) this start interval timeout w
          = wait_loop api fuel this start interval timeout w'
          ∧ heap w' !! this = match last rs with
                              | Some r => Some (snd r)
                              | None => heap w !! this
                              end
          ∧ calls (trace w') = calls (trace w) + length rs
          ∧ sleeps (trace w') = sleeps (trace w) + length rs
          ∧ now w' = (now w + total_latency rs + Z.of_nat (length rs) * interval)%Z.
Proof.
  intros Hi. induction rs as [|[l m] rs IH]; intros fuel w [model Hm] Hrs Hget Ht.
  - exists w. simpl. split_and!; try done; lia.
  - apply Forall_cons in Hrs as [[Hl (st & Hst & Hnt)] Hrs]. simpl in Hl, Hst.
    pose proof (total_latency_nonneg rs Hrs) as Hnn.
    pose proof (Hget 0 (l, m) eq_refl) as H0. rewrite Nat.add_0_r in H0. simpl in H0.
    simpl in Ht. cbn [length Nat.add].
    rewrite (wait_loop_poll (length rs + fuel) this start interval timeout w model m l st)
      by (done || lia).
    rewrite Hnt.
    set (w2 := slept interval (reloaded this model m l w)).
    assert (Hc2 : calls (trace w2) = calls (trace w) + 1).
    { unfold w2. by rewrite slept_calls, reloaded_calls. }
    assert (Hs2 : sleeps (trace w2) = sleeps (trace w) + 1).
    { unfold w2. by rewrite slept_sleeps, reloaded_sleeps. }
    assert (Hm2 : heap w2 !! this = Some m).
    { unfold w2. simpl. apply list_lookup_insert_eq. by eapply lookup_lt_Some. }
    destruct (IH fuel w2) as (w' & Hrun & Hheap & Hcalls & Hsleeps & Hnow).
    + by exists m.
    + exact Hrs.
    + intros i r Hr. rewrite Hc2.
      replace (calls (trace w) + 1 + i) with (calls (trace w) + S i) by lia.
      by apply Hget.
    + unfold w2. simpl. lia.
    + exists w'. split; [exact Hrun|].
      rewrite Hcalls, Hsleeps, Hc2, Hs2, Hnow, Hheap, Hm2, last_cons.
      unfold w2. simpl. split_and!; try lia. by destruct (last rs).
Qed.

(** X6. With a timeout that is zero or negative, [wait] throws
    [TimeoutError] at once: it makes no call, does not sleep and leaves
    the world as it is. *)
Theorem X6_wait_without_time_makes_no_call (this : ref) (w : World)
    (intervalMs timeoutMs : Z) (fuel : nat) :
  (timeoutMs ≤ 0)%Z →
  0 < fuel →
  wait api fuel this intervalMs timeoutMs w
  = Some (Throw (TimeoutError "Transfer timed out"), w).
Proof.
  intros Ht Hfuel. destruct fuel as [|fuel]; [lia|].
  change (wait api (S fuel) this intervalMs timeoutMs w)
    with (wait_loop api (S fuel) this (now w) intervalMs timeoutMs w).
  apply wait_loop_timed_out. lia.
Qed.

(** X7. [wait] does not retry: when, after some reloads in a non-terminal
    status, a call of [getTransfer] is rejected before the timeout, [wait]
    throws that error after that call, and the instance holds the record
    of the last reload that succeeded. *)
Theorem X7_wait_propagates_rejected_reload (this : ref) (w : World)
    (intervalMs timeoutMs : Z) (rs : list (Z * Model)) (latency : Z) (e : JsError)
    (fuel : nat) :
  is_Some (heap w !! this) →
  (0 ≤ intervalMs)%Z →
  length rs < fuel →
  Forall non_terminal rs →
  (∀ i r, rs !! i = Some r → getTransfer api (calls (trace w) + i) = (fst r, Ok (snd r))) →
  getTransfer api (calls (trace w) + length rs) = (latency, Throw e) →
  (total_latency rs + Z.of_nat (length rs) * intervalMs < timeoutMs)%Z →
  ∃ w', wait api fuel this intervalMs timeoutMs w = Some (Throw e, w')
        ∧ calls (trace w') = calls (trace w) + length rs + 1
        ∧ sleeps (trace w') = sleeps (trace w) + length rs
        ∧ heap w' !! this = match last rs with
                            | Some r => Some (snd r)
                            | None => heap w !! this
                            end.
Proof.
  intros Hthis Hi Hfuel Hrs Hget Hlast Ht.
  change (wait api fuel this intervalMs timeoutMs w)
    with (wait_loop api fuel this (now w) intervalMs timeoutMs w).
  replace fuel with (length rs + S (fuel - length rs - 1)) by lia.
  destruct (wait_loop_after_polls this (now w) intervalMs timeoutMs Hi rs
              (S (fuel - length rs - 1)) w Hthis Hrs Hget)
    as (w1 & Hrun & Hheap & Hcalls & Hsleeps & Hnow); [lia|].
  assert (Hsome : is_Some (heap w1 !! this)).
  { rewrite Hheap. destruct (last rs); [eauto|exact Hthis]. }
  destruct Hsome as [m1 Hm1].
  rewrite Hrun, (wait_loop_rejected _ this (now w) intervalMs timeoutMs w1 m1 latency e);
    [|lia|exact Hm1|by rewrite Hcalls].
  eexists. split; [reflexivity|]. simpl.
  rewrite calls_app, sleeps_app, Hcalls, Hsleeps, <- Hheap. simpl.
  split_and!; [done|apply Nat.add_0_r|done].
Qed.

(** X8. When a reload before the timeout yields a record that has
    neither a transaction nor a sponsored send, [wait] throws the
    [TypeError] of [getStatus]; the instance then holds that record. *)
Theorem X8_wait_throws_on_record_without_delegate (this : ref) (w : World)
    (intervalMs timeoutMs : Z) (rs : list (Z * Model)) (latency : Z) (data : Model)
    (fuel : nat) :
  is_Some (heap w !! this) →
  (0 ≤ intervalMs)%Z →
  length rs < fuel →
  Forall non_terminal rs →
  (∀ i r, rs !! i = Some r → getTransfer api (calls (trace w) + i) = (fst r, Ok (snd r))) →
  getTransfer api (calls (trace w) + length rs) = (latency, Ok data) →
  transaction data = None →
  sponsored_send data = None →
  (total_latency rs + Z.of_nat (length rs) * intervalMs < timeoutMs)%Z →
  ∃ w', wait api fuel this intervalMs timeoutMs w
        = Some (Throw (TypeError "Cannot read properties of undefined (reading 'getStatus')"),
                w')
        ∧ heap w' !! this = Some data
        ∧ calls (trace w') = calls (trace w) + length rs + 1.
Proof.
  intros Hthis Hi Hfuel Hrs Hget Hlast Htx Hss Ht.
  change (wait api fuel this intervalMs timeoutMs w)
    with (wait_loop api fuel this (now w) intervalMs timeoutMs w).
  replace fuel with (length rs + S (fuel - length rs - 1)) by lia.
  destruct (wait_loop_after_polls this (now w) intervalMs timeoutMs Hi rs
              (S (fuel - length rs - 1)) w Hthis Hrs Hget)
    as (w1 & Hrun & Hheap & Hcalls & Hsleeps & Hnow); [lia|].
  assert (Hsome : is_Some (heap w1 !! this)).
  { rewrite Hheap. destruct (last rs); [eauto|exact Hthis]. }
  destruct Hsome as [m1 Hm1].
  assert (Hs : getStatus data
               = Throw (TypeError "Cannot read properties of undefined (reading 'getStatus')")).
  { unfold getStatus, getSendTransactionDelegate, getTransaction, getSponsoredSend.
    by rewrite Htx, Hss. }
  rewrite Hrun, (wait_loop_status_throws _ this (now w) intervalMs timeoutMs w1 m1 data
                   latency
                   (TypeError "Cannot read properties of undefined (reading 'getStatus')"));
    [|lia|exact Hm1|by rewrite Hcalls|exact Hs].
  eexists. split; [reflexivity|].
  rewrite (reloaded_lookup this w1 m1 data latency Hm1), reloaded_calls, Hcalls. done.
Qed.

(** However [wait] ends, it has only called [getTransfer] and slept for
    the interval, one sleep after each call but possibly the last. *)
Lemma wait_loop_frame (this : ref) (start interval timeout : Z) :
  ∀ (fuel : nat) (w w' : World) (r : result ref),
    wait_loop api fuel this start interval timeout w = Some (r, w') →
    length (heap w') = length (heap w)
    ∧ (∀ other, other ≠ this → heap w' !! other = heap w !! other)
    ∧ ∃ evs, trace w' = trace w ++ evs
             ∧ polling interval evs
             ∧ Forall (poll_event interval) evs
             ∧ sleeps evs ≤ calls evs ≤ sleeps evs + 1.
Proof.
  induction fuel as [|fuel IH]; intros w w' r; [discriminate|].
  destruct (Z.lt_ge_cases (now w - start) timeout) as [Hlt|Hge].
  - destruct (heap w !! this) as [model|] eqn:Hm;
      [|by rewrite wait_loop_dangling].
    destruct (getTransfer api (calls (trace w))) as [latency [data|e]] eqn:Hr.
    + assert (Hframe : ∀ other, other ≠ this →
                heap (reloaded this model data latency w) !! other = heap w !! other).
      { intros other Hne. simpl. by apply list_lookup_insert_ne. }
      assert (Hget : poll_event interval
                       (GetTransfer (getWalletId model) (getFromAddressId model) (getId model))).
      { right. by eexists _, _, _. }
      destruct (getStatus data) as [status|e] eqn:Hs.
      * rewrite (wait_loop_poll fuel this start interval timeout w model data latency status)
          by done.
        destruct (is_terminal status).
        -- intros [= <- <-]. simpl. rewrite length_insert. split_and!; [done|exact Hframe|].
           eexists. split; [reflexivity|]. split; [apply polling_last|].
           split; [by constructor|]. cbn. lia.
        -- intros Hrun. apply IH in Hrun as (Hlen & Hother & evs & Htr & Hpoll & Hev & Hcount).
           simpl in Hlen, Hother, Htr. rewrite length_insert in Hlen.
           split_and!; [done| |].
           ++ intros other Hne. rewrite (Hother other Hne). by apply list_lookup_insert_ne.
           ++ exists (GetTransfer (getWalletId model) (getFromAddressId model) (getId model)
                      :: Sleep interval :: evs).
              split; [by rewrite Htr, <- !app_assoc|].
              split; [by apply polling_turn|]. split.
              ** constructor; [exact Hget|]. constructor; [by left|exact Hev].
              ** unfold sleeps, calls in *. simpl. lia.
      * rewrite (wait_loop_status_throws fuel this start interval timeout w model data latency e)
          by done.
        intros [= <- <-]. simpl. rewrite length_insert. split_and!; [done|exact Hframe|].
        eexists. split; [reflexivity|]. split; [apply polling_last|].
        split; [by constructor|]. cbn. lia.
    + rewrite (wait_loop_rejected fuel this start interval timeout w model latency e) by done.
      intros [= <- <-]. simpl. split_and!; [done|done|].
      eexists. split; [reflexivity|]. split; [apply polling_last|]. split; [|cbn; lia].
      constructor; [|constructor]. right. by eexists _, _, _.
  - rewrite wait_loop_timed_out by lia. intros [= <- <-].
    split_and!; [done|done|]. exists []. rewrite app_nil_r.
    split_and!; [done|apply polling_done|constructor|cbn; lia|cbn; lia].
Qed.

(** X9. However [wait] ends, it has created no instance and changed no
    instance but its own; what it has done is a run of turns, each a call
    of [getTransfer] followed by a sleep for the interval, ended by
    nothing or by one last call of [getTransfer]: it has called nothing
    else, and has slept once after each call except possibly the last. *)
Theorem X9_wait_touches_only_its_instance (this : ref) (w w' : World)
    (intervalMs timeoutMs : Z) (fuel : nat) (r : result ref) :
  wait api fuel this intervalMs timeoutMs w = Some (r, w') →
  length (heap w') = length (heap w)
  ∧ (∀ other, other ≠ this → heap w' !! other = heap w !! other)
  ∧ ∃ evs, trace w' = trace w ++ evs
           ∧ polling intervalMs evs
           ∧ Forall (poll_event intervalMs) evs
           ∧ sleeps evs ≤ calls evs ≤ sleeps evs + 1.
Proof.
  change (wait api fuel this intervalMs timeoutMs w)
    with (wait_loop api fuel this (now w) intervalMs timeoutMs w).
  apply wait_loop_frame.
Qed.

End TransferProtocolProps.

(** * Properties of [StakingBalance.list] *)

Section StakingBalanceProps.

Import StakingBalance.

Context {StakingBalanceModel Asset : Type}.

Local Abbreviation Response := (FetchStakingBalances200Response StakingBalanceModel).
Local Abbreviation Page := (Response * Asset)%type.
Local Abbreviation State := (@LoopState StakingBalanceModel Asset).

Variable service : @Service StakingBalanceModel Asset.
Variables networkId assetId addressId startTime endTime : string.

Local Abbreviation iteration := (iteration service networkId assetId addressId startTime endTime).
Local Abbreviation step := (step service networkId assetId addressId startTime endTime).
Local Abbreviation list_loop := (list_loop service networkId assetId addressId startTime endTime).
Local Abbreviation reachable := (reachable service networkId assetId addressId startTime endTime).

Lemma enqueue_stops (response : Response) (queue : Datatypes.list string) :
  continues response = false → enqueue response queue = queue.
Proof.
  unfold continues, enqueue. destruct (has_more response); [|done].
  destruct (next_page response) as [cursor|]; [|done].
  simpl. by intros ->.
Qed.

Lemma enqueue_continues (response : Response) (queue : Datatypes.list string) :
  continues response = true →
  ∃ cursor, next_page response = Some cursor ∧ cursor ≠ ""
            ∧ enqueue response queue = queue ++ [cursor].
Proof.
  unfold continues, enqueue. destruct (has_more response); [|done].
  destruct (next_page response) as [cursor|]; [|done].
  simpl. intros Hc. rewrite Hc. exists cursor. split_and!; try done.
  intros ->. discriminate.
Qed.

Lemma enqueue_length (response : Response) (queue : Datatypes.list string) :
  length (enqueue response queue) ≤ S (length queue).
Proof.
  destruct (continues response) eqn:Hc.
  - destruct (enqueue_continues response queue Hc) as (cursor & _ & _ & ->).
    rewrite length_app. simpl. lia.
  - rewrite (enqueue_stops response queue Hc). lia.
Qed.

Lemma step_inv (st st' : State) :
  step st = Some (Ok st') →
  ∃ page rest response asset,
    queue st = page :: rest
    ∧ fetchStakingBalances service (page_requests (trace st)) = Ok response
    ∧ Asset_fetch service (asset_requests (trace st)) = Ok asset
    ∧ stakingBalances st' = stakingBalances st ++ records_of (response, asset)
    ∧ queue st' = enqueue response rest
    ∧ page_requests (trace st') = page_requests (trace st) + 1
    ∧ asset_requests (trace st') = asset_requests (trace st) + 1.
Proof.
  unfold StakingBalance.step. destruct (queue st) as [|page rest] eqn:Hq; [discriminate|].
  unfold StakingBalance.iteration.
  destruct (fetchStakingBalances service _) as [response|e] eqn:Hf; [|discriminate].
  destruct (Asset_fetch service _) as [asset|e] eqn:Ha; [|discriminate].
  intros [= <-]. exists page, rest, response, asset. simpl.
  unfold page_requests, asset_requests. rewrite !List.filter_app, !length_app. simpl.
  split_and!; done.
Qed.

Lemma step_page (st : State) (page : string) (rest : Datatypes.list string)
    (response : Response) (asset : Asset) :
  queue st = page :: rest →
  fetchStakingBalances service (page_requests (trace st)) = Ok response →
  Asset_fetch service (asset_requests (trace st)) = Ok asset →
  ∃ st', step st = Some (Ok st')
         ∧ stakingBalances st' = stakingBalances st ++ records_of (response, asset)
         ∧ queue st' = enqueue response rest
         ∧ page_requests (trace st') = page_requests (trace st) + 1
         ∧ asset_requests (trace st') = asset_requests (trace st) + 1.
Proof.
  intros Hq Hf Ha. unfold StakingBalance.step, StakingBalance.iteration.
  rewrite Hq, Hf, Ha. eexists. split; [reflexivity|]. simpl.
  unfold page_requests, asset_requests. rewrite !List.filter_app, !length_app. simpl.
  split_and!; done.
Qed.

(** The walk over a chain of pages: every page but the last asks for the
    next one, the last one does not. *)
Lemma list_loop_pages (final : Page) :
  continues (fst final) = false →
  ∀ (ps : Datatypes.list Page) (fuel : nat) (st : State) (page : string),
    queue st = [page] →
    length ps + 1 < fuel →
    Forall (λ p : Page, continues (fst p) = true) ps →
    (∀ i (p : Page), (ps ++ [final]) !! i = Some p →
       fetchStakingBalances service (page_requests (trace st) + i) = Ok (fst p)
       ∧ Asset_fetch service (asset_requests (trace st) + i) = Ok (snd p)) →
    ∃ st', list_loop fuel st = Some (Ok st')
           ∧ stakingBalances st'
             = stakingBalances st ++ concat (records_of <$> (ps ++ [final]))
           ∧ queue st' = []
           ∧ page_requests (trace st') = page_requests (trace st) + length ps + 1.
Proof.
  intros Hfinal. induction ps as [|p ps IH]; intros fuel st page Hq Hfuel Hps Hsrv;
    (destruct fuel as [|fuel]; [lia|]).
  - destruct (Hsrv 0 final eq_refl) as [Hf Ha]. rewrite Nat.add_0_r in Hf, Ha.
    destruct (step_page st page [] (fst final) (snd final) Hq Hf Ha)
      as (st' & Hstep & Hsb & Hq' & Hpr & _).
    rewrite (enqueue_stops _ _ Hfinal) in Hq'.
    exists st'. cbn [StakingBalance.list_loop]. rewrite Hstep.
    destruct fuel as [|fuel]; [simpl in Hfuel; lia|].
    cbn [StakingBalance.list_loop]. unfold StakingBalance.step. rewrite Hq'.
    split_and!; try done.
    + rewrite Hsb. simpl. rewrite app_nil_r. by destruct final.
    + simpl. lia.
  - apply Forall_cons in Hps as [Hp Hps].
    destruct (Hsrv 0 p eq_refl) as [Hf Ha]. rewrite Nat.add_0_r in Hf, Ha.
    destruct (step_page st page [] (fst p) (snd p) Hq Hf Ha)
      as (st1 & Hstep & Hsb & Hq1 & Hpr & Har).
    destruct (enqueue_continues (fst p) [] Hp) as (cursor & _ & _ & Henq).
    rewrite Henq in Hq1. simpl in Hq1.
    destruct (IH fuel st1 cursor Hq1) as (st' & Hrun & Hsb' & Hq' & Hpr').
    + simpl in Hfuel. lia.
    + exact Hps.
    + intros i q Hi. rewrite Hpr, Har.
      replace (page_requests (trace st) + 1 + i) with (page_requests (trace st) + S i) by lia.
      replace (asset_requests (trace st) + 1 + i) with (asset_requests (trace st) + S i) by lia.
      by apply Hsrv.
    + exists st'. cbn [StakingBalance.list_loop]. rewrite Hstep.
      split_and!; try done.
      * rewrite Hsb', Hsb. simpl. rewrite <- app_assoc. by destruct p.
      * rewrite Hpr', Hpr. simpl. lia.
Qed.

(** *** The calls of a walk *)

Local Abbreviation request_body := (request_body service networkId assetId addressId startTime endTime).
Local Abbreviation walk_events := (walk_events service networkId assetId addressId startTime endTime).
Local Abbreviation well_formed_call :=
  (well_formed_call service networkId assetId addressId startTime endTime).

Lemma cursor_of_nonempty (cursor : string) : cursor ≠ "" → cursor_of cursor = Some cursor.
Proof. unfold cursor_of. by destruct cursor. Qed.

Lemma cursor_of_not_empty (page : string) : cursor_of page ≠ Some "".
Proof. unfold cursor_of. destruct page; simpl; [done|]. intros [=]. Qed.

Lemma step_trace (st st' : State) :
  step st = Some (Ok st') →
  ∃ page rest, queue st = page :: rest
               ∧ trace st' = trace st ++ [FetchStakingBalances request_body 100 (cursor_of page);
                                          AssetFetch networkId assetId].
Proof.
  unfold StakingBalance.step. destruct (queue st) as [|page rest] eqn:Hq; [discriminate|].
  unfold StakingBalance.iteration.
  destruct (fetchStakingBalances service _) as [response|e]; [|discriminate].
  destruct (Asset_fetch service _) as [asset|e]; [|discriminate].
  intros [= <-]. by exists page, rest.
Qed.

(** The loop after [length ps] pages that ask for the next one. *)
Lemma list_loop_after_pages :
  ∀ (ps : Datatypes.list Page) (fuel : nat) (st : State) (page : string),
    queue st = [page] →
    Forall (λ p : Page, continues (fst p) = true) ps →
    (∀ i (p : Page), ps !! i = Some p →
       fetchStakingBalances service (page_requests (trace st) + i) = Ok (fst p)
       ∧ Asset_fetch service (asset_requests (trace st) + i) = Ok (snd p)) →
    ∃ st' page',
      list_loop (length ps + fuel) st = list_loop fuel st'
      ∧ queue st' = [page']
      ∧ cursor_of page' = match last ps with
                          | Some p => next_page (fst p)
                          | None => cursor_of page
                          end
      ∧ stakingBalances st' = stakingBalances st ++ concat (records_of <$> ps)
      ∧ page_requests (trace st') = page_requests (trace st) + length ps
      ∧ asset_requests (trace st') = asset_requests (trace st) + length ps
      ∧ trace st' = trace st ++ walk_events (cursor_of page) (fst <$> ps).
Proof.
  induction ps as [|p ps IH]; intros fuel st page Hq Hps Hsrv.
  - exists st, page. simpl. rewrite !app_nil_r, !Nat.add_0_r. by split_and!.
  - apply Forall_cons in Hps as [Hp Hps].
    destruct (Hsrv 0 p eq_refl) as [Hf Ha]. rewrite Nat.add_0_r in Hf, Ha.
    destruct (step_page st page [] (fst p) (snd p) Hq Hf Ha)
      as (st1 & Hstep & Hsb & Hq1 & Hpr & Har).
    destruct (step_trace st st1 Hstep) as (page0 & rest0 & Hq0 & Htr).
    rewrite Hq in Hq0. injection Hq0 as <- <-.
    destruct (enqueue_continues (fst p) [] Hp) as (cursor & Hnext & Hne & Henq).
    rewrite Henq in Hq1. simpl in Hq1.
    destruct (IH fuel st1 cursor Hq1 Hps) as (st' & page' & Hrun & Hq' & Hc & Hsb' & Hpr' & Har' & Htr').
    + intros i q Hi. rewrite Hpr, Har.
      replace (page_requests (trace st) + 1 + i) with (page_requests (trace st) + S i) by lia.
      replace (asset_requests (trace st) + 1 + i) with (asset_requests (trace st) + S i) by lia.
      by apply Hsrv.
    + exists st', page'. cbn [length Nat.add StakingBalance.list_loop]. rewrite Hstep.
      split_and!; try done.
      * rewrite Hc, last_cons, (cursor_of_nonempty cursor Hne), <- Hnext.
        by destruct (last ps).
      * rewrite Hsb', Hsb. simpl. rewrite <- app_assoc. by destruct p.
      * rewrite Hpr', Hpr. simpl. lia.
      * rewrite Har', Har. simpl. lia.
      * rewrite Htr', Htr, (cursor_of_nonempty cursor Hne), <- Hnext, <- app_assoc.
        reflexivity.
Qed.

Lemma walk_events_snoc (cursor : option string) (pages : Datatypes.list Response)
    (response : Response) :
  walk_events cursor (pages ++ [response])
  = walk_events cursor pages
    ++ [FetchStakingBalances request_body 100
          (match last pages with
           | Some p => next_page p
           | None => cursor
           end);
        AssetFetch networkId assetId].
Proof.
  revert cursor. induction pages as [|p pages IH]; intros cursor; [reflexivity|].
  simpl. rewrite IH, last_cons. do 4 f_equal. by destruct (last pages).
Qed.

(** The calls of a walk over a chain of pages. *)
Lemma list_pages_calls (ps : Datatypes.list Page) (final : Page) (fuel : nat) :
  Forall (λ p : Page, continues (fst p) = true) ps →
  continues (fst final) = false →
  (∀ i (p : Page), (ps ++ [final]) !! i = Some p →
     fetchStakingBalances service i = Ok (fst p) ∧ Asset_fetch service i = Ok (snd p)) →
  length ps + 1 < fuel →
  ∃ st', list_loop fuel initial = Some (Ok st')
         ∧ trace st' = walk_events None (fst <$> (ps ++ [final])).
Proof.
  intros Hps Hfinal Hsrv Hfuel.
  destruct (list_loop_after_pages ps (S (S (fuel - length ps - 2))) initial "" eq_refl Hps)
    as (st1 & page1 & Hrun & Hq1 & Hc & _ & Hpr & Har & Htr).
  { intros i p Hi. apply Hsrv. by apply lookup_app_l_Some. }
  replace (length ps + S (S (fuel - length ps - 2))) with fuel in Hrun by lia.
  destruct (Hsrv (length ps) final) as [Hf Ha].
  { rewrite lookup_app_r by lia. by rewrite Nat.sub_diag. }
  destruct (step_page st1 page1 [] (fst final) (snd final) Hq1) as (st2 & Hstep & _ & Hq2 & _).
  { by rewrite Hpr. }
  { by rewrite Har. }
  destruct (step_trace st1 st2 Hstep) as (page0 & rest0 & Hq0 & Htr2).
  rewrite Hq1 in Hq0. injection Hq0 as <- <-.
  rewrite (enqueue_stops _ _ Hfinal) in Hq2.
  exists st2. rewrite Hrun. cbn [StakingBalance.list_loop]. rewrite Hstep.
  unfold StakingBalance.step. rewrite Hq2. split; [reflexivity|].
  rewrite Htr2, Htr, Hc, fmap_app. change (fst <$> [final]) with [fst final].
  rewrite walk_events_snoc, fmap_last. simpl.
  by destruct (last ps).
Qed.

Lemma models_of_records (pages : Datatypes.list Page) :
  model <$> concat (records_of <$> pages) = concat ((λ p : Page, data (fst p)) <$> pages).
Proof.
  induction pages as [|p pages IH]; [reflexivity|].
  rewrite !fmap_cons, !concat_cons, fmap_app, IH. f_equal.
  unfold records_of. induction (data (fst p)) as [|r rs IHrs]; [reflexivity|].
  simpl. f_equal. exact IHrs.
Qed.

Lemma list_pages (ps : Datatypes.list Page) (final : Page) (fuel : nat) :
  Forall (λ p : Page, continues (fst p) = true) ps →
  continues (fst final) = false →
  (∀ i (p : Page), (ps ++ [final]) !! i = Some p →
     fetchStakingBalances service i = Ok (fst p) ∧ Asset_fetch service i = Ok (snd p)) →
  length ps + 1 < fuel →
  ∃ st', list_loop fuel initial = Some (Ok st')
         ∧ page_requests (trace st') = length ps + 1
         ∧ stakingBalances st' = concat (records_of <$> (ps ++ [final]))
         ∧ list service networkId assetId addressId startTime endTime fuel
           = Some (Ok (stakingBalances st')).
Proof.
  intros Hps Hfinal Hsrv Hfuel.
  destruct (list_loop_pages final Hfinal ps fuel initial "" eq_refl Hfuel Hps Hsrv)
    as (st' & Hrun & Hsb & _ & Hpr).
  exists st'. unfold list. rewrite Hrun. by split_and!.
Qed.

(** C8. When every page but the last says there is more and gives a
    cursor, and the last page says there is no more, [list] returns the
    records of the pages one page after the other, each page in the order
    the server gave; it gets them by asking for the first page without a
    cursor and for each later page with the cursor of the page before. In
    particular, 100 records with cursor "p2" and then 37 records give 137
    records, page 1 before page 2, the second page asked for with "p2". *)
Theorem C8_list_returns_pages_in_order :
  (∀ (ps : Datatypes.list Page) (final : Page) (fuel : nat),
      Forall (λ p : Page, has_more (fst p) = true
                          ∧ ∃ cursor, next_page (fst p) = Some cursor ∧ cursor ≠ "") ps →
      has_more (fst final) = false →
      (∀ i (p : Page), (ps ++ [final]) !! i = Some p →
         fetchStakingBalances service i = Ok (fst p) ∧ Asset_fetch service i = Ok (snd p)) →
      length ps + 1 < fuel →
      ∃ records st',
        list service networkId assetId addressId startTime endTime fuel = Some (Ok records)
        ∧ records = concat (records_of <$> (ps ++ [final]))
        ∧ model <$> records = concat ((λ p : Page, data (fst p)) <$> (ps ++ [final]))
        ∧ list_loop fuel initial = Some (Ok st')
        ∧ stakingBalances st' = records
        ∧ trace st' = walk_events None (fst <$> (ps ++ [final])))
  ∧ (∀ (p1 p2 : Response) (a1 a2 : Asset) (fuel : nat),
        fetchStakingBalances service 0 = Ok p1 → Asset_fetch service 0 = Ok a1 →
        fetchStakingBalances service 1 = Ok p2 → Asset_fetch service 1 = Ok a2 →
        length (data p1) = 100 → has_more p1 = true → next_page p1 = Some "p2" →
        length (data p2) = 37 → has_more p2 = false →
        2 < fuel →
        ∃ records st',
          list service networkId assetId addressId startTime endTime fuel = Some (Ok records)
          ∧ length records = 137
          ∧ records = records_of (p1, a1) ++ records_of (p2, a2)
          ∧ model <$> records = data p1 ++ data p2
          ∧ list_loop fuel initial = Some (Ok st')
          ∧ stakingBalances st' = records
          ∧ trace st' = [FetchStakingBalances request_body 100 None;
                         AssetFetch networkId assetId;
                         FetchStakingBalances request_body 100 (Some "p2");
                         AssetFetch networkId assetId]).
Proof.
  assert (Hboth : ∀ (ps : Datatypes.list Page) (final : Page) (fuel : nat),
            Forall (λ p : Page, continues (fst p) = true) ps →
            continues (fst final) = false →
            (∀ i (p : Page), (ps ++ [final]) !! i = Some p →
               fetchStakingBalances service i = Ok (fst p)
               ∧ Asset_fetch service i = Ok (snd p)) →
            length ps + 1 < fuel →
            ∃ st', list_loop fuel initial = Some (Ok st')
                   ∧ stakingBalances st' = concat (records_of <$> (ps ++ [final]))
                   ∧ list service networkId assetId addressId startTime endTime fuel
                     = Some (Ok (stakingBalances st'))
                   ∧ trace st' = walk_events None (fst <$> (ps ++ [final]))).
  { intros ps final fuel Hps Hfinal Hsrv Hfuel.
    destruct (list_pages ps final fuel Hps Hfinal Hsrv Hfuel) as (st' & Hrun & _ & Hsb & Hlist).
    destruct (list_pages_calls ps final fuel Hps Hfinal Hsrv Hfuel) as (st'' & Hrun' & Htr).
    rewrite Hrun in Hrun'. injection Hrun' as <-. by exists st'. }
  split.
  - intros ps final fuel Hps Hfinal Hsrv Hfuel.
    destruct (Hboth ps final fuel) as (st' & Hrun & Hsb & Hlist & Htr); try done.
    + eapply Forall_impl; [exact Hps|]. intros p (Hm & cursor & Hn & Hne).
      unfold continues. rewrite Hm, Hn. simpl.
      destruct (String.eqb_spec cursor ""); done.
    + unfold continues. by rewrite Hfinal.
    + rewrite Hsb in Hlist. exists (concat (records_of <$> (ps ++ [final]))), st'.
      split_and!; [exact Hlist|reflexivity| |exact Hrun|exact Hsb|exact Htr].
      apply models_of_records.
  - intros p1 p2 a1 a2 fuel Hf1 Ha1 Hf2 Ha2 Hl1 Hm1 Hn1 Hl2 Hm2 Hfuel.
    destruct (Hboth [(p1, a1)] (p2, a2) fuel) as (st' & Hrun & Hsb & Hlist & Htr).
    + repeat constructor. unfold continues. simpl. by rewrite Hm1, Hn1.
    + unfold continues. simpl. by rewrite Hm2.
    + intros [|[|i]] p [= <-]; done.
    + simpl. lia.
    + rewrite Hsb in Hlist. simpl in Hlist, Hsb. rewrite app_nil_r in Hlist, Hsb.
      exists (records_of (p1, a1) ++ records_of (p2, a2)), st'.
      split_and!; [exact Hlist| |reflexivity| |exact Hrun|exact Hsb|].
      * unfold records_of. rewrite length_app, !length_map. simpl. lia.
      * pose proof (models_of_records [(p1, a1); (p2, a2)]) as Hmodels.
        simpl in Hmodels. by rewrite !app_nil_r in Hmodels.
      * rewrite Htr. simpl. by rewrite Hn1.
Qed.

(** C2, as the code has it. A page that says there is more but gives no
    cursor (none, or an empty one) ends the walk like a last page: [list]
    makes no further request, throws nothing, and returns the records
    collected so far, those of that page included. *)
Theorem C2_list_stops_without_cursor (ps : Datatypes.list Page) (bad : Page) (fuel : nat) :
  Forall (λ p : Page, continues (fst p) = true) ps →
  has_more (fst bad) = true →
  truthy (next_page (fst bad)) = false →
  (∀ i (p : Page), (ps ++ [bad]) !! i = Some p →
     fetchStakingBalances service i = Ok (fst p) ∧ Asset_fetch service i = Ok (snd p)) →
  length ps + 1 < fuel →
  ∃ st', list_loop fuel initial = Some (Ok st')
         ∧ page_requests (trace st') = length ps + 1
         ∧ list service networkId assetId addressId startTime endTime fuel
           = Some (Ok (concat (records_of <$> (ps ++ [bad])))).
Proof.
  intros Hps Hm Hn Hsrv Hfuel.
  destruct (list_pages ps bad fuel) as (st' & Hrun & Hpr & Hsb & Hlist); try done.
  - unfold continues. by rewrite Hm, Hn.
  - exists st'. rewrite Hsb in Hlist. by split_and!.
Qed.

Lemma reachable_queue (st : State) : reachable st → length (queue st) ≤ 1.
Proof.
  induction 1 as [|st st' _ IH Hstep]; [simpl; lia|].
  apply step_inv in Hstep as (page & rest & response & asset & Hq & _ & _ & _ & Hq' & _).
  rewrite Hq' . rewrite Hq in IH. simpl in IH.
  pose proof (enqueue_length response rest). lia.
Qed.

(** C9. The queue starts with the single entry [""]; every state of the
    loop has at most one entry in the queue; a turn of the loop takes one
    entry off the front and adds at most one at the back; and the loop
    ends exactly when the queue is empty. *)
Theorem C9_queue_holds_at_most_one_cursor :
  queue (@initial StakingBalanceModel Asset) = [""]
  ∧ (∀ st, reachable st → length (queue st) ≤ 1)
  ∧ (∀ st st', step st = Some (Ok st') →
       ∃ page rest, queue st = page :: rest
                    ∧ (queue st' = rest ∨ ∃ cursor, queue st' = rest ++ [cursor]))
  ∧ (∀ st st', reachable st → step st = Some (Ok st') →
       ∃ page, queue st = [page] ∧ (queue st' = [] ∨ ∃ cursor, queue st' = [cursor]))
  ∧ (∀ st fuel, queue st = [] → list_loop (S fuel) st = Some (Ok st))
  ∧ (∀ st, queue st ≠ [] → is_Some (step st)).
Proof.
  assert (Hstep : ∀ st st', step st = Some (Ok st') →
            ∃ page rest, queue st = page :: rest
                         ∧ (queue st' = rest ∨ ∃ cursor, queue st' = rest ++ [cursor])).
  { intros st st' H.
    apply step_inv in H as (page & rest & response & asset & Hq & _ & _ & _ & Hq' & _).
    exists page, rest. split; [exact Hq|]. rewrite Hq'.
    destruct (continues response) eqn:Hc.
    - destruct (enqueue_continues response rest Hc) as (cursor & _ & _ & ->). eauto.
    - rewrite (enqueue_stops response rest Hc). by left. }
  split_and!.
  - reflexivity.
  - apply reachable_queue.
  - exact Hstep.
  - intros st st' Hreach H. pose proof (reachable_queue st Hreach) as Hlen.
    destruct (Hstep st st' H) as (page & rest & Hq & Hq').
    rewrite Hq in Hlen. simpl in Hlen. destruct rest; [|simpl in Hlen; lia].
    exists page. split; [exact Hq|]. simpl in Hq'. exact Hq'.
  - intros st fuel Hq. cbn [StakingBalance.list_loop]. unfold StakingBalance.step.
    by rewrite Hq.
  - intros st Hq. unfold StakingBalance.step. destruct (queue st); [done|]. eauto.
Qed.

(** *** Errors, the calls made, and walks that do not end *)

(** X10. An error of any page aborts the walk: when, after pages that
    ask for the next one, the page request is rejected, or the fetch of
    the asset that follows it is, [list] throws that error and returns no
    record. *)
Theorem X10_list_aborts_on_error (ps : Datatypes.list Page) (e : JsError) (fuel : nat) :
  Forall (λ p : Page, continues (fst p) = true) ps →
  (∀ i (p : Page), ps !! i = Some p →
     fetchStakingBalances service i = Ok (fst p) ∧ Asset_fetch service i = Ok (snd p)) →
  fetchStakingBalances service (length ps) = Throw e
  ∨ (∃ response, fetchStakingBalances service (length ps) = Ok response
                 ∧ Asset_fetch service (length ps) = Throw e) →
  length ps < fuel →
  list service networkId assetId addressId startTime endTime fuel = Some (Throw e).
Proof.
  intros Hps Hsrv Herr Hfuel.
  destruct (list_loop_after_pages ps (S (fuel - length ps - 1)) initial "" eq_refl Hps Hsrv)
    as (st' & page' & Hrun & Hq' & _ & _ & Hpr & Har & _).
  replace (length ps + S (fuel - length ps - 1)) with fuel in Hrun by lia.
  unfold list. rewrite Hrun. cbn [StakingBalance.list_loop].
  unfold StakingBalance.step, StakingBalance.iteration. rewrite Hq', Hpr, Har. simpl.
  destruct Herr as [Hf|(response & Hf & Ha)].
  - by rewrite Hf.
  - by rewrite Hf, Ha.
Qed.

(** X11. The calls of a walk that ends: the first page request carries
    no cursor, each later one carries the cursor the page before
    returned, every one asks for 100 records with the same request body,
    and the asset is fetched once after each page. *)
Theorem X11_list_threads_cursors (ps : Datatypes.list Page) (final : Page) (fuel : nat) :
  Forall (λ p : Page, continues (fst p) = true) ps →
  continues (fst final) = false →
  (∀ i (p : Page), (ps ++ [final]) !! i = Some p →
     fetchStakingBalances service i = Ok (fst p) ∧ Asset_fetch service i = Ok (snd p)) →
  length ps + 1 < fuel →
  ∃ st', list_loop fuel initial = Some (Ok st')
         ∧ trace st' = walk_events None (fst <$> (ps ++ [final])).
Proof.
  apply list_pages_calls.
Qed.

Lemma list_loop_endless :
  (∀ n, ∃ response asset,
      fetchStakingBalances service n = Ok response
      ∧ continues response = true
      ∧ Asset_fetch service n = Ok asset) →
  ∀ (fuel : nat) (st : State) (page : string),
    queue st = [page] → list_loop fuel st = None.
Proof.
  intros Hsrv. induction fuel as [|fuel IH]; intros st page Hq; [reflexivity|].
  destruct (Hsrv (page_requests (trace st))) as (response & asset & Hf & Hc & _).
  destruct (Hsrv (asset_requests (trace st))) as (_ & asset' & _ & _ & Ha).
  destruct (step_page st page [] response asset' Hq Hf Ha) as (st' & Hstep & _ & Hq' & _).
  destruct (enqueue_continues response [] Hc) as (cursor & _ & _ & Henq).
  rewrite Henq in Hq'. cbn [StakingBalance.list_loop]. rewrite Hstep.
  by apply (IH st' cursor).
Qed.

(** X12. The walk has no bound of its own: against a service whose
    every page says there is more and gives a cursor, [list] never
    returns, whatever the number of turns it is allowed. *)
Theorem X12_list_never_returns_on_endless_pages :
  (∀ n, ∃ response asset,
      fetchStakingBalances service n = Ok response
      ∧ continues response = true
      ∧ Asset_fetch service n = Ok asset) →
  ∀ fuel, list service networkId assetId addressId startTime endTime fuel = None.
Proof.
  intros Hsrv fuel. unfold list.
  by rewrite (list_loop_endless Hsrv fuel initial "" eq_refl).
Qed.

(** X13. In every state of the loop, whatever the service answers: the
    asset has been fetched as often as a page, two calls were made per
    page, every page request has the same body, the limit 100 and never
    an empty cursor, and every fetch of the asset is for the network and
    asset of the call. *)
Theorem X13_list_calls_are_well_formed (st : State) :
  reachable st →
  asset_requests (trace st) = page_requests (trace st)
  ∧ length (trace st) = 2 * page_requests (trace st)
  ∧ Forall well_formed_call (trace st).
Proof.
  induction 1 as [|st st' _ (Har & Hlen & Hwf) Hstep].
  - split_and!; [reflexivity|reflexivity|constructor].
  - destruct (step_trace st st' Hstep) as (page & rest & _ & Htr).
    apply step_inv in Hstep as (_ & _ & _ & _ & _ & _ & _ & _ & _ & Hpr' & Har').
    split_and!.
    + lia.
    + rewrite Hpr', Htr, length_app, Hlen. cbn [length]. lia.
    + rewrite Htr. apply Forall_app. split; [exact Hwf|].
      constructor; [|constructor; [done|constructor]].
      split_and!; [done|done|apply cursor_of_not_empty].
Qed.

End StakingBalanceProps.

(** * Properties of [BalanceMap] *)

Section BalanceMapProps.

Import BalanceMap.

Context {Decimal BalanceModel : Type}.

Local Abbreviation JsMap := (@JsMap Decimal).

Variable Balance_fromModel : BalanceModel → Balance Decimal.

Lemma map_get_set (key key' : string) (value : Decimal) (map : JsMap) :
  map_get key' (map_set key value map)
  = if String.eqb key key' then Some value else map_get key' map.
Proof.
  induction map as [|[k v] map IH]; simpl.
  - by rewrite String.eqb_sym.
  - destruct (String.eqb_spec k key) as [->|Hk]; simpl.
    + by destruct (String.eqb key key').
    + rewrite IH. destruct (String.eqb_spec k key') as [->|Hk'].
      * destruct (String.eqb_spec key key'); congruence.
      * reflexivity.
Qed.

Lemma keys_map_set (key : string) (value : Decimal) (map : JsMap) :
  keys (map_set key value map)
  = if bool_decide (key ∈ keys map) then keys map else keys map ++ [key].
Proof.
  unfold keys. induction map as [|[k v] map IH]; simpl; [done|].
  destruct (String.eqb_spec k key) as [->|Hk]; simpl.
  - rewrite bool_decide_eq_true_2; [done|]. apply list_elem_of_here.
  - rewrite IH. destruct (bool_decide _) eqn:Hin.
    + apply bool_decide_eq_true in Hin.
      rewrite bool_decide_eq_true_2; [done|]. by apply list_elem_of_further.
    + apply bool_decide_eq_false in Hin.
      rewrite bool_decide_eq_false_2; [done|].
      rewrite elem_of_cons. intros [?|?]; congruence.
Qed.

Lemma map_set_NoDup (key : string) (value : Decimal) (map : JsMap) :
  NoDup (keys map) → NoDup (keys (map_set key value map)).
Proof.
  intros Hnd. rewrite keys_map_set. destruct (bool_decide _) eqn:Hin; [done|].
  apply bool_decide_eq_false in Hin.
  apply NoDup_app. split_and!; [done| |apply NoDup_singleton].
  intros k Hk ->%list_elem_of_singleton. done.
Qed.

(** Setting the same entry twice is setting it once, order included. *)
Lemma map_set_idemp (key : string) (value : Decimal) (map : JsMap) :
  map_set key value (map_set key value map) = map_set key value map.
Proof.
  induction map as [|[k v] map IH]; simpl.
  - by rewrite String.eqb_refl.
  - destruct (String.eqb_spec k key) as [->|Hk]; simpl.
    + by rewrite String.eqb_refl.
    + destruct (String.eqb_spec k key); [done|]. by rewrite IH.
Qed.

Lemma last_with_cons (id : string) (b : Balance Decimal) (balances : list (Balance Decimal)) :
  last_with id (b :: balances)
  = match last_with id balances with
    | Some b' => Some b'
    | None => if String.eqb (assetId b) id then Some b else None
    end.
Proof.
  unfold last_with. rewrite filter_cons.
  destruct (decide (assetId b = id)) as [->|Hne].
  - rewrite String.eqb_refl.
    destruct (filter _ balances) as [|b' bs] eqn:Hf; [done|].
    rewrite last_cons. by destruct (last (b' :: bs)).
  - destruct (String.eqb_spec (assetId b) id); [done|]. by destruct (last _).
Qed.

Lemma fromBalances_from (balances : list BalanceModel) :
  ∀ map0 : JsMap,
    ∃ map,
      foldl (λ balanceMap balanceModel,
               Js.bind balanceMap (add (IsBalance (Balance_fromModel balanceModel))))
        (Ok map0) balances = Ok map
      ∧ (NoDup (keys map0) → NoDup (keys map))
      ∧ ∀ id, map_get id map
              = match last_with id (Balance_fromModel <$> balances) with
                | Some b => Some (amount b)
                | None => map_get id map0
                end.
Proof.
  induction balances as [|bm balances IH]; intros map0.
  - exists map0. by split_and!.
  - simpl foldl.
    destruct (IH (map_set (assetId (Balance_fromModel bm)) (amount (Balance_fromModel bm)) map0))
      as (map & Hfold & Hnd & Hget).
    exists map. split_and!.
    + exact Hfold.
    + intros H0. apply Hnd. by apply map_set_NoDup.
    + intros id. rewrite Hget, fmap_cons, last_with_cons, map_get_set.
      destruct (last_with id _); [done|]. by destruct (String.eqb _ id).
Qed.

(** C10. [fromBalances] yields a map with one entry per asset id, in
    which each id is bound to the amount of the last balance of the list
    that bears it, and no other id is bound; and adding the same balance
    twice leaves the map as one [add] leaves it. *)
Theorem C10_balance_map_last_write_wins :
  (∀ balances : list BalanceModel,
      ∃ map, fromBalances Balance_fromModel balances = Ok map
             ∧ NoDup (keys map)
             ∧ ∀ id, map_get id map
                     = amount <$> last_with id (Balance_fromModel <$> balances))
  ∧ (∀ (balance : Balance Decimal) (map : JsMap),
        ∃ map1, add (IsBalance balance) map = Ok map1
                ∧ Js.bind (add (IsBalance balance) map) (add (IsBalance balance)) = Ok map1
                ∧ map_get (assetId balance) map1 = Some (amount balance)).
Proof.
  split.
  - intros balances. destruct (fromBalances_from balances []) as (map & Hfold & Hnd & Hget).
    exists map. split_and!.
    + exact Hfold.
    + apply Hnd. constructor.
    + intros id. rewrite Hget. by destruct (last_with id _).
  - intros balance map. eexists. split_and!.
    + reflexivity.
    + simpl. by rewrite map_set_idemp.
    + by rewrite map_get_set, String.eqb_refl.
Qed.

(** *** Order of the entries, and how maps compose *)

Lemma fromBalances_keys_from (balances : list BalanceModel) :
  ∀ map0 : JsMap,
    ∃ map,
      foldl (λ balanceMap balanceModel,
               Js.bind balanceMap (add (IsBalance (Balance_fromModel balanceModel))))
        (Ok map0) balances = Ok map
      ∧ keys map
        = keys map0
          ++ filter (λ id, id ∉ keys map0)
               (first_occurrences ((λ bm, assetId (Balance_fromModel bm)) <$> balances)).
Proof.
  induction balances as [|bm balances IH]; intros map0.
  - exists map0. split; [reflexivity|]. simpl. by rewrite filter_nil, app_nil_r.
  - simpl foldl.
    destruct (IH (map_set (assetId (Balance_fromModel bm)) (amount (Balance_fromModel bm)) map0))
      as (map & Hfold & Hkeys).
    exists map. split; [exact Hfold|]. rewrite Hkeys, keys_map_set, fmap_cons.
    cbn [first_occurrences]. destruct (bool_decide _) eqn:Hin.
    + apply bool_decide_eq_true in Hin.
      rewrite filter_cons_False by (intros Hn; by apply Hn).
      rewrite list_filter_filter. f_equal. apply list_filter_iff.
      intros id. split; [|by intros [? _]]. intros Hid. split; [done|]. by intros ->.
    + apply bool_decide_eq_false in Hin.
      rewrite filter_cons_True by done.
      rewrite list_filter_filter, <- app_assoc. simpl. do 2 f_equal.
      apply list_filter_iff. intros id.
      rewrite elem_of_app, list_elem_of_singleton. tauto.
Qed.

Lemma filter_not_in_nil (ids : list string) :
  filter (λ id, id ∉ @nil string) ids = ids.
Proof.
  induction ids as [|id ids IH]; [reflexivity|].
  rewrite filter_cons_True by apply not_elem_of_nil. by rewrite IH.
Qed.

(** X14. The entries of [fromBalances] stand in the order in which their
    asset ids first occur in the list: a later balance of an asset already
    seen changes the amount, not the place. *)
Theorem X14_fromBalances_keeps_first_occurrence_order (balances : list BalanceModel) :
  ∃ map, fromBalances Balance_fromModel balances = Ok map
         ∧ keys map
           = first_occurrences ((λ bm, assetId (Balance_fromModel bm)) <$> balances).
Proof.
  destruct (fromBalances_keys_from balances []) as (map & Hfold & Hkeys).
  exists map. split; [exact Hfold|]. rewrite Hkeys. simpl.
  apply filter_not_in_nil.
Qed.

(** X15. [add] of a balance changes the entry of its asset id only: the
    other ids keep their amounts; when the id is already in the map the
    order and the number of the entries stay as they are, otherwise the
    new entry goes to the end. A value that is not a [Balance] is refused
    with an error. *)
Theorem X15_add_changes_one_entry (balance : Balance Decimal) (map : JsMap) :
  (∃ map', add (IsBalance balance) map = Ok map'
           ∧ map_get (assetId balance) map' = Some (amount balance)
           ∧ (∀ id, id ≠ assetId balance → map_get id map' = map_get id map)
           ∧ (assetId balance ∈ keys map → keys map' = keys map)
           ∧ (assetId balance ∉ keys map → keys map' = keys map ++ [assetId balance]))
  ∧ add NotBalance map = Throw (Error "balance must be a Balance").
Proof.
  split; [|reflexivity]. eexists. split; [reflexivity|]. split_and!.
  - by rewrite map_get_set, String.eqb_refl.
  - intros id Hne. rewrite map_get_set.
    destruct (String.eqb_spec (assetId balance) id); congruence.
  - intros Hin. rewrite keys_map_set. by rewrite bool_decide_eq_true_2.
  - intros Hin. rewrite keys_map_set. by rewrite bool_decide_eq_false_2.
Qed.

Lemma last_with_app (id : string) (l1 l2 : list (Balance Decimal)) :
  last_with id (l1 ++ l2)
  = match last_with id l2 with
    | Some b => Some b
    | None => last_with id l1
    end.
Proof.
  unfold last_with. rewrite filter_app, last_app.
  by destruct (last (filter _ l2)).
Qed.

(** X16. A map built from two lists one after the other is the map of
    the first list overwritten by the map of the second: an id the second
    list binds has the amount of the second, any other id the amount of
    the first; the entries of the first map come first, in their order,
    followed by the new ids of the second in theirs. *)
Theorem X16_fromBalances_of_concatenation (balances1 balances2 : list BalanceModel) :
  ∃ map1 map2 map,
    fromBalances Balance_fromModel balances1 = Ok map1
    ∧ fromBalances Balance_fromModel balances2 = Ok map2
    ∧ fromBalances Balance_fromModel (balances1 ++ balances2) = Ok map
    ∧ (∀ id, map_get id map = match map_get id map2 with
                              | Some value => Some value
                              | None => map_get id map1
                              end)
    ∧ keys map = keys map1 ++ filter (λ id, id ∉ keys map1) (keys map2).
Proof.
  destruct (fromBalances_from balances1 []) as (map1 & Hfold1 & _ & Hget1).
  destruct (fromBalances_from balances2 []) as (map2 & Hfold2 & _ & Hget2).
  destruct (fromBalances_from (balances1 ++ balances2) []) as (map & Hfold & _ & Hget).
  destruct (fromBalances_keys_from balances2 []) as (map2' & Hfold2' & Hkeys2).
  rewrite Hfold2 in Hfold2'. injection Hfold2' as <-.
  destruct (fromBalances_keys_from balances2 map1) as (map' & Hfold' & Hkeys).
  assert (map' = map) as ->.
  { unfold fromBalances in Hfold1. rewrite foldl_app, Hfold1, Hfold' in Hfold.
    by injection Hfold. }
  exists map1, map2, map. split_and!; try done.
  - intros id. rewrite Hget, Hget1, Hget2, fmap_app, last_with_app. simpl.
    by destruct (last_with id (Balance_fromModel <$> balances2)).
  - rewrite Hkeys, Hkeys2. simpl. by rewrite filter_not_in_nil.
Qed.

End BalanceMapProps.

(** * The properties on concrete runs *)

Section Runs.

Import Scenario.

#[local] Existing Instance names.
#[local] Existing Instance sub_record_delegate.

Lemma C1_getStatus_follows_table_witness :
  StatusTable.table_consistent = true
  ∧ Transfer.getStatus (sponsored "submitted") = Ok (Some BROADCAST)
  ∧ Transfer.getStatus (onchain "signed") = Ok (Some PENDING)
  ∧ Transfer.getStatus (onchain "unspecified") = Ok None.
Proof.
  split; [reflexivity|].
  destruct (C1_getStatus_follows_table (SV:=names) (sponsored "submitted")
              (Transfer.IsSponsoredSend (signed "submitted")) eq_refl eq_refl)
    as (Hrow & _ & _).
  destruct (C1_getStatus_follows_table (SV:=names) (onchain "signed")
              (Transfer.IsTransaction (signed "signed")) eq_refl eq_refl)
    as (_ & Hvalue & _).
  destruct (C1_getStatus_follows_table (SV:=names) (onchain "unspecified")
              (Transfer.IsTransaction (signed "unspecified")) eq_refl eq_refl)
    as (_ & _ & Hnone).
  split_and!.
  - apply (Hrow "submitted" BROADCAST eq_refl). unfold StatusTable.spec_status_table. in_table.
  - apply (Hvalue StatusTable.Sponsored "signed" PENDING eq_refl).
    unfold StatusTable.spec_status_table. in_table.
  - apply Hnone. intros s [= <-] k u Hin.
    unfold StatusTable.spec_status_table in Hin.
    rewrite !elem_of_cons, elem_of_nil in Hin.
    repeat destruct Hin as [Hin|Hin]; try done; discriminate Hin.
Defined.

(** The table has no row for an onchain transaction in the raw status
    "signed", yet [getStatus] of such a transfer is PENDING, not
    [undefined]: the value is the one of [SponsoredSendStatus.SIGNED]. *)
Lemma C1_counterexample_onchain_signed :
  Transfer.getSendTransactionDelegate (onchain "signed")
  = Some (Transfer.IsTransaction (signed "signed"))
  ∧ Transfer.delegate_getStatus
      (Transfer.IsTransaction (SponsoredSendModel:=SubRecord) (signed "signed"))
    = Some "signed"
  ∧ (∀ u, (StatusTable.Onchain, "signed", u) ∉ StatusTable.spec_status_table)
  ∧ Transfer.getStatus (onchain "signed") = Ok (Some PENDING)
  ∧ Transfer.getStatus (onchain "signed") ≠ Ok None.
Proof.
  split_and!; [reflexivity|reflexivity| |reflexivity|discriminate].
  intros u Hin. unfold StatusTable.spec_status_table in Hin.
  rewrite !elem_of_cons, elem_of_nil in Hin.
  repeat destruct Hin as [Hin|Hin]; try done; discriminate Hin.
Qed.

(** The [switch] looks at the value only: with these member values, an
    onchain transaction whose raw status has the value of
    [SponsoredSendStatus.SIGNED] is reported PENDING. *)
Example getStatus_onchain_signed :
  Transfer.getStatus (onchain "signed") = Ok (Some PENDING).
Proof. reflexivity. Qed.

Lemma C3_no_delegate_getStatus_throws_witness :
  Transfer.transaction bare = None
  ∧ Transfer.sponsored_send bare = None
  ∧ Transfer.getTransactionHash bare = Ok None
  ∧ Transfer.getTransactionLink bare = Ok None
  ∧ Transfer.getStatus bare
    = Throw (TypeError "Cannot read properties of undefined (reading 'getStatus')").
Proof.
  split; [reflexivity|]. split; [reflexivity|].
  exact (C3_no_delegate_getStatus_throws bare eq_refl eq_refl).
Defined.

Lemma C4_broadcast_unsigned_makes_no_call_witness :
  let model := transfer_with (Some (unsigned "pending")) None in
  Transfer.heap (world_with model) !! 0 = Some model
  ∧ Transfer.broadcast (server 0 [] "pending") 0 (world_with model)
    = Some (Throw (Error "Cannot broadcast unsigned Transfer"), world_with model).
Proof.
  intros model. split; [reflexivity|].
  refine (proj1 (C4_broadcast_unsigned_makes_no_call (server 0 [] "pending") 0
                   (world_with model) model eq_refl _)).
  intros d [= <-]. reflexivity.
Defined.

(** [broadcast] succeeds, and the instance it was called on still holds
    the record it held before, not the one the server returned. *)
Lemma C5_counterexample_broadcast_keeps_old_record :
  ∃ r w' data,
    Transfer.broadcast (server 0 [] "pending") 0 (world_with (onchain "pending"))
    = Some (Ok r, w')
    ∧ Transfer.broadcastTransfer (server 0 [] "pending") 0 = (0%Z, Ok data)
    ∧ Transfer.heap w' !! 0 = Some (onchain "pending")
    ∧ Transfer.heap w' !! 0 ≠ Some data.
Proof.
  eexists 1, _, _. split_and!; [reflexivity|reflexivity|reflexivity|].
  simpl. intros [=].
Qed.

Lemma C5_reload_replaces_broadcast_returns_new_witness :
  ∃ w', Transfer.reload (server 0 ["complete"] "complete") 0 (world_with (onchain "pending"))
        = Some (Ok tt, w')
        ∧ Transfer.heap w' !! 0 = Some (onchain "complete")
        ∧ ∀ other, other ≠ 0 →
            Transfer.heap w' !! other = Transfer.heap (world_with (onchain "pending")) !! other.
Proof.
  exact (proj1 (C5_reload_replaces_broadcast_returns_new (server 0 ["complete"] "complete") 0
                  (world_with (onchain "pending")) (onchain "pending") (onchain "complete")
                  0%Z eq_refl) eq_refl).
Defined.



Lemma C7_wait_returns_at_first_terminal_reload_witness :
  let api := server 50 ["pending"; "broadcast"; "complete"] "complete" in
  let w := world_with (onchain "pending") in
  ∃ w', Transfer.wait api 3 0 200 10000 w = Some (Ok 0, w')
        ∧ Transfer.sleeps (Transfer.trace w') = Transfer.sleeps (Transfer.trace w) + 2
        ∧ Transfer.calls (Transfer.trace w') = Transfer.calls (Transfer.trace w) + 3
        ∧ Transfer.heap w' !! 0 = Some (onchain "complete")
        ∧ Transfer.getStatus (onchain "complete") = Ok (Some COMPLETE).
Proof.
  intros api w.
  refine (proj2 (C7_wait_returns_at_first_terminal_reload api) 0 w
            (onchain "pending") (onchain "broadcast") (onchain "complete")
            (signed "pending") (signed "broadcast") (signed "complete")
            50%Z 50%Z 50%Z 3 _ _ _ _ _ _ _ _ _ _ _ _ _ _ _);
    try reflexivity; try lia.
  eexists. reflexivity.
Defined.

(** The middle page says there is more and gives no cursor: [list]
    returns the four records of the first two pages and throws nothing. *)
Lemma C2_counterexample_truncated_result :
  broken_pages !! 1 = Some (page 2 2 true None)
  ∧ StakingBalance.list (paged broken_pages) "base-sepolia" "eth" "addr1" "t0" "t1" 5
    = Some (Ok [staking_balance 0; staking_balance 1; staking_balance 2; staking_balance 3])
  ∧ ∀ e, StakingBalance.list (paged broken_pages) "base-sepolia" "eth" "addr1" "t0" "t1" 5
         ≠ Some (Throw e).
Proof.
  split_and!; [reflexivity|reflexivity|]. intros e. vm_compute. discriminate.
Qed.

Lemma C2_list_stops_without_cursor_witness :
  ∃ st', StakingBalance.list_loop (paged broken_pages) "base-sepolia" "eth" "addr1" "t0" "t1" 5
           StakingBalance.initial = Some (Ok st')
         ∧ StakingBalance.page_requests (StakingBalance.trace st') = 1 + 1
         ∧ StakingBalance.list (paged broken_pages) "base-sepolia" "eth" "addr1" "t0" "t1" 5
           = Some (Ok (concat (StakingBalance.records_of
                                 <$> ([(page 0 2 true (Some "p2"), "eth")]
                                      ++ [(page 2 2 true None, "eth")])))).
Proof.
  refine (C2_list_stops_without_cursor (paged broken_pages) "base-sepolia" "eth" "addr1"
            "t0" "t1" [(page 0 2 true (Some "p2"), "eth")] (page 2 2 true None, "eth") 5
            _ _ _ _ _).
  - repeat constructor.
  - reflexivity.
  - reflexivity.
  - intros [|[|i]] p [= <-]; split; reflexivity.
  - simpl. lia.
Defined.

Lemma C8_list_returns_pages_in_order_witness :
  ∃ records st',
    StakingBalance.list (paged two_pages) "base-sepolia" "eth" "addr1" "t0" "t1" 3
    = Some (Ok records)
    ∧ length records = 137
    ∧ records = StakingBalance.records_of (page 0 100 true (Some "p2"), "eth")
                ++ StakingBalance.records_of (page 100 37 false None, "eth")
    ∧ StakingBalance.model <$> records = seq 0 100 ++ seq 100 37
    ∧ StakingBalance.list_loop (paged two_pages) "base-sepolia" "eth" "addr1" "t0" "t1" 3
        StakingBalance.initial = Some (Ok st')
    ∧ StakingBalance.stakingBalances st' = records
    ∧ StakingBalance.trace st'
      = [StakingBalance.FetchStakingBalances
           (StakingBalance.request_body (paged two_pages) "base-sepolia" "eth" "addr1"
              "t0" "t1") 100 None;
         StakingBalance.AssetFetch "base-sepolia" "eth";
         StakingBalance.FetchStakingBalances
           (StakingBalance.request_body (paged two_pages) "base-sepolia" "eth" "addr1"
              "t0" "t1") 100 (Some "p2");
         StakingBalance.AssetFetch "base-sepolia" "eth"].
Proof.
  refine (proj2 (C8_list_returns_pages_in_order (paged two_pages) "base-sepolia" "eth"
                   "addr1" "t0" "t1")
            (page 0 100 true (Some "p2")) (page 100 37 false None) "eth" "eth" 3
            _ _ _ _ _ _ _ _ _ _); try reflexivity.
  lia.
Defined.

(** The state after the first turn of the loop over [two_pages]: the
    queue holds the cursor "p2" and two calls have been made. *)
Lemma C9_queue_holds_at_most_one_cursor_witness :
  ∃ st1,
    StakingBalance.step (paged two_pages) "base-sepolia" "eth" "addr1" "t0" "t1"
      StakingBalance.initial = Some (Ok st1)
    ∧ StakingBalance.queue st1 = ["p2"]
    ∧ length (StakingBalance.queue st1) ≤ 1
    ∧ ∃ page, StakingBalance.queue (@StakingBalance.initial nat string) = [page]
              ∧ (StakingBalance.queue st1 = []
                 ∨ ∃ cursor, StakingBalance.queue st1 = [cursor]).
Proof.
  eexists. split; [reflexivity|]. split; [reflexivity|].
  pose proof (C9_queue_holds_at_most_one_cursor (paged two_pages) "base-sepolia" "eth"
                "addr1" "t0" "t1") as (_ & Hinv & _ & Hturn & _).
  split.
  - apply Hinv. eapply StakingBalance.reachable_step;
      [apply StakingBalance.reachable_initial|reflexivity].
  - apply (Hturn StakingBalance.initial); [apply StakingBalance.reachable_initial|reflexivity].
Defined.

Lemma C10_balance_map_last_write_wins_witness :
  ∃ map,
    BalanceMap.fromBalances balance_of [("eth", 1%Z); ("usdc", 5%Z); ("eth", 3%Z)] = Ok map
    ∧ NoDup (BalanceMap.keys map)
    ∧ ∀ id, BalanceMap.map_get id map
            = BalanceMap.amount
                <$> BalanceMap.last_with id
                      (balance_of <$> [("eth", 1%Z); ("usdc", 5%Z); ("eth", 3%Z)]).
Proof.
  exact (proj1 (C10_balance_map_last_write_wins balance_of)
           [("eth", 1%Z); ("usdc", 5%Z); ("eth", 3%Z)]).
Defined.

Example fromBalances_keeps_last :
  BalanceMap.fromBalances balance_of [("eth", 1%Z); ("usdc", 5%Z); ("eth", 3%Z)]
  = Ok [("eth", 3%Z); ("usdc", 5%Z)].
Proof. reflexivity. Qed.

Lemma X1_delegate_prefers_transaction_witness :
  let model := transfer_with (Some (signed "complete")) (Some (signed "pending")) in
  Transfer.getSendTransactionDelegate model = Some (Transfer.IsTransaction (signed "complete"))
  ∧ Transfer.getTransactionHash model = Ok (Some "0xabc")
  ∧ Transfer.getTransactionLink model = Ok (Some "https://explorer/tx/0xabc")
  ∧ Transfer.getStatus model = Ok (Some COMPLETE).
Proof.
  intros model.
  exact (proj1 (X1_delegate_prefers_transaction (SV:=names) model) (signed "complete") eq_refl).
Defined.

Lemma X2_getStatus_outcomes_witness :
  ∃ d s k, Transfer.getSendTransactionDelegate (sponsored "signed") = Some d
           ∧ Transfer.delegate_getStatus d = Some s
           ∧ (k, s, PENDING) ∈ StatusTable.spec_status_table.
Proof.
  exact (proj2 (X2_getStatus_outcomes (SV:=names) (sponsored "signed")) PENDING eq_refl).
Defined.

Lemma X3_broadcast_rejected_keeps_heap_witness :
  let api := scripted 20 [] (Throw (APIError "500")) in
  let w := world_with (onchain "pending") in
  ∃ w', Transfer.broadcast api 0 w = Some (Throw (APIError "500"), w')
        ∧ Transfer.heap w' = Transfer.heap w
        ∧ Transfer.calls (Transfer.trace w') = Transfer.calls (Transfer.trace w) + 1
        ∧ Transfer.sleeps (Transfer.trace w') = Transfer.sleeps (Transfer.trace w).
Proof.
  intros api w.
  exact (X3_broadcast_rejected_keeps_heap api 0 w (onchain "pending") 20 (APIError "500")
           eq_refl eq_refl eq_refl).
Defined.

Lemma X4_broadcast_sends_signature_witness :
  let api := server 0 [] "pending" in
  let w := world_with (onchain "pending") in
  ∃ r w', Transfer.broadcast api 0 w = Some (r, w')
          ∧ Transfer.trace w'
            = Transfer.trace w
              ++ [Transfer.BroadcastTransfer "wallet-1" "0xfrom" "transfer-1" (Some "0xf86b")].
Proof.
  intros api w.
  exact (X4_broadcast_sends_signature api 0 w (onchain "pending")
           (Transfer.IsTransaction (signed "pending")) eq_refl eq_refl eq_refl).
Defined.

Lemma X5_reload_rejected_keeps_record_witness :
  let api := scripted 20 [] (Throw (APIError "404")) in
  let w := world_with (onchain "pending") in
  ∃ w', Transfer.reload api 0 w = Some (Throw (APIError "404"), w')
        ∧ Transfer.heap w' = Transfer.heap w
        ∧ Transfer.trace w'
          = Transfer.trace w ++ [Transfer.GetTransfer "wallet-1" "0xfrom" "transfer-1"].
Proof.
  intros api w.
  exact (X5_reload_rejected_keeps_record api 0 w (onchain "pending") 20 (APIError "404")
           eq_refl eq_refl).
Defined.

Lemma X6_wait_without_time_makes_no_call_witness :
  Transfer.wait (server 0 [] "complete") 1 0 200 0 (world_with (onchain "pending"))
  = Some (Throw (TimeoutError "Transfer timed out"), world_with (onchain "pending")).
Proof.
  apply (X6_wait_without_time_makes_no_call (SV:=names)); lia.
Defined.

Lemma X7_wait_propagates_rejected_reload_witness :
  let api := scripted 50 [Ok (onchain "pending")] (Throw (APIError "503")) in
  let w := world_with (onchain "pending") in
  ∃ w', Transfer.wait api 2 0 200 10000 w = Some (Throw (APIError "503"), w')
        ∧ Transfer.calls (Transfer.trace w') = Transfer.calls (Transfer.trace w) + 1 + 1
        ∧ Transfer.sleeps (Transfer.trace w') = Transfer.sleeps (Transfer.trace w) + 1
        ∧ Transfer.heap w' !! 0 = Some (onchain "pending").
Proof.
  intros api w.
  refine (X7_wait_propagates_rejected_reload (SV:=names) api 0 w 200 10000
            [(50%Z, onchain "pending")] 50 (APIError "503") 2 _ _ _ _ _ eq_refl _).
  - eexists. reflexivity.
  - lia.
  - simpl. lia.
  - repeat constructor; simpl; [lia|]. eexists. split; reflexivity.
  - intros [|i] r [= <-]. reflexivity.
  - simpl. lia.
Defined.

Lemma X8_wait_throws_on_record_without_delegate_witness :
  let api := scripted 50 [Ok (onchain "pending")] (Ok bare) in
  let w := world_with (onchain "pending") in
  ∃ w', Transfer.wait api 2 0 200 10000 w
        = Some (Throw (TypeError "Cannot read properties of undefined (reading 'getStatus')"),
                w')
        ∧ Transfer.heap w' !! 0 = Some bare
        ∧ Transfer.calls (Transfer.trace w') = Transfer.calls (Transfer.trace w) + 1 + 1.
Proof.
  intros api w.
  refine (X8_wait_throws_on_record_without_delegate (SV:=names) api 0 w 200 10000
            [(50%Z, onchain "pending")] 50 bare 2 _ _ _ _ _ eq_refl eq_refl eq_refl _).
  - eexists. reflexivity.
  - lia.
  - simpl. lia.
  - repeat constructor; simpl; [lia|]. eexists. split; reflexivity.
  - intros [|i] r [= <-]. reflexivity.
  - simpl. lia.
Defined.

Lemma X9_wait_touches_only_its_instance_witness :
  let api := server 50 ["pending"; "broadcast"; "complete"] "complete" in
  let w := world_with (onchain "pending") in
  ∃ r w', Transfer.wait api 3 0 200 10000 w = Some (r, w')
          ∧ length (Transfer.heap w') = length (Transfer.heap w)
          ∧ ∃ evs, Transfer.trace w' = Transfer.trace w ++ evs
                   ∧ Transfer.polling 200 evs.
Proof.
  intros api w. eexists _, _. split; [vm_compute; reflexivity|].
  match goal with
  | |- length (Transfer.heap ?w1) = _ ∧ _ =>
      destruct (X9_wait_touches_only_its_instance (SV:=names) (TxD:=sub_record_delegate)
                  (SsD:=sub_record_delegate) api 0 w w1 200 10000 3 (Ok 0))
        as (Hlen & _ & evs & Htr & Hpoll & _); [vm_compute; reflexivity|]
  end.
  split; [exact Hlen|]. by exists evs.
Defined.

Lemma X10_list_aborts_on_error_witness :
  StakingBalance.list (paged [page 0 2 true (Some "p2")]) "base-sepolia" "eth" "addr1"
    "t0" "t1" 5
  = Some (Throw (APIError "no such page")).
Proof.
  refine (X10_list_aborts_on_error (paged [page 0 2 true (Some "p2")]) "base-sepolia" "eth"
            "addr1" "t0" "t1" [(page 0 2 true (Some "p2"), "eth")] (APIError "no such page")
            5 _ _ _ _).
  - repeat constructor.
  - intros [|i] p [= <-]. split; reflexivity.
  - left. reflexivity.
  - simpl. lia.
Defined.

Lemma X11_list_threads_cursors_witness :
  ∃ st', StakingBalance.list_loop (paged two_pages) "base-sepolia" "eth" "addr1" "t0" "t1" 3
           StakingBalance.initial = Some (Ok st')
         ∧ StakingBalance.trace st'
           = StakingBalance.walk_events (paged two_pages) "base-sepolia" "eth" "addr1" "t0"
               "t1" None
               (fst <$> ([(page 0 100 true (Some "p2"), "eth")]
                         ++ [(page 100 37 false None, "eth")])).
Proof.
  refine (X11_list_threads_cursors (paged two_pages) "base-sepolia" "eth" "addr1" "t0" "t1"
            [(page 0 100 true (Some "p2"), "eth")] (page 100 37 false None, "eth") 3
            _ _ _ _).
  - repeat constructor.
  - reflexivity.
  - intros [|[|i]] p [= <-]; split; reflexivity.
  - simpl. lia.
Defined.

Lemma X12_list_never_returns_on_endless_pages_witness :
  StakingBalance.list endless "base-sepolia" "eth" "addr1" "t0" "t1" 50 = None.
Proof.
  refine (X12_list_never_returns_on_endless_pages endless "base-sepolia" "eth" "addr1"
            "t0" "t1" _ 50).
  intros n. exists (page n 1 true (Some "next")), "eth". split_and!; reflexivity.
Defined.

(** The state after the first turn of the loop over [two_pages]: its two
    calls are examined. *)
Lemma X13_list_calls_are_well_formed_witness :
  ∃ st1,
    StakingBalance.step (paged two_pages) "base-sepolia" "eth" "addr1" "t0" "t1"
      StakingBalance.initial = Some (Ok st1)
    ∧ StakingBalance.trace st1
      = [StakingBalance.FetchStakingBalances
           (StakingBalance.request_body (paged two_pages) "base-sepolia" "eth" "addr1"
              "t0" "t1") 100 None;
         StakingBalance.AssetFetch "base-sepolia" "eth"]
    ∧ StakingBalance.asset_requests (StakingBalance.trace st1)
      = StakingBalance.page_requests (StakingBalance.trace st1)
    ∧ length (StakingBalance.trace st1)
      = 2 * StakingBalance.page_requests (StakingBalance.trace st1)
    ∧ Forall (StakingBalance.well_formed_call (paged two_pages) "base-sepolia" "eth" "addr1"
                "t0" "t1")
        (StakingBalance.trace st1).
Proof.
  eexists. split; [reflexivity|]. split; [reflexivity|].
  apply (X13_list_calls_are_well_formed (paged two_pages) "base-sepolia" "eth" "addr1"
           "t0" "t1").
  eapply StakingBalance.reachable_step; [apply StakingBalance.reachable_initial|reflexivity].
Defined.

Lemma X15_add_changes_one_entry_witness :
  ∃ map', BalanceMap.add (BalanceMap.IsBalance (balance_of ("eth", 3%Z)))
            [("eth", 1%Z); ("usdc", 5%Z)] = Ok map'
          ∧ BalanceMap.keys map' = ["eth"; "usdc"].
Proof.
  destruct (proj1 (X15_add_changes_one_entry (balance_of ("eth", 3%Z))
                     [("eth", 1%Z); ("usdc", 5%Z)]))
    as (map' & Hadd & _ & _ & Hkeys & _).
  exists map'. split; [exact Hadd|]. apply Hkeys. apply list_elem_of_here.
Defined.

End Runs.
